(** * salad-gpu-executor: the code execution engine of [main.py]

    A shallow embedding of [execute_code_with_timeout] and of the request
    handler [execute_python_code], with the properties of the execution
    engine proved over it.

    The Python runtime itself ([compile], [exec], [asyncio.wait_for],
    [contextlib.redirect_stdout]) lies outside the repository.  It is
    represented as follows.
    - The process is a record [Proc]: a heap of objects (text streams,
      dicts, modules), the process-wide attributes [sys.stdout] and
      [sys.stderr], the builtins object, a wall clock, and a log of the
      redirections and dispatches made so far.
    - [compile] is a parameter: any function from source text to either a
      piece of compiled code or a raised exception.
    - Compiled code is the script of effects its execution has on the
      process ([Instr]), ended by a normal return, a raised exception or a
      hang.
    - The handler is a coroutine.  It is embedded as the two pieces on
      either side of its one [await]: [enter_handler] and
      [resume_handler].  [execute_code_with_timeout] composes them for a
      call that runs alone in the process; [run] interleaves the pieces of
      several calls, and the statements of their workers, along a
      schedule.
    - A string is the sequence of the bytes of its UTF-8 encoding.
    - The executed code is covered as far as [Instr] goes: it prints,
      closes the streams [sys.stdout] and [sys.stderr] point at, binds
      names, sets attributes of modules, imports and sleeps.  It does not
      rebind [sys.stdout], [sys.stderr] or the names the handler itself
      resolves, such as [time.time]. *)

From Stdlib Require Import ZArith QArith Lia Ascii String DecimalString.
From stdpp Require Import base option list gmap strings.

Set Warnings "-register-all".
Local Open Scope Z_scope.

(** ** Python values *)

Abbreviation loc := nat (only parsing).

(** A value is either one of the plain data kinds or a reference to an
    object that lives on the heap (a module, a function, a stream, ...). *)
Inductive PyVal : Type :=
| VNone
| VBool (b : bool)
| VInt (n : Z)
| VStr (s : string)
| VList (xs : list PyVal)
| VDict (kvs : list (string * PyVal))
| VRef (l : loc).



Definition nl : string := String "010"%char EmptyString.

(** [str(n)] for an [int]. *)
Definition str_int (n : Z) : string := NilZero.string_of_int (Z.to_int n).

(** ** Exceptions *)

(** The part of the exception class tree the handler distinguishes, and
    classes defined by the executed code.  [TimeoutError] is
    [asyncio.TimeoutError]. *)
Inductive PyClass : Type :=
| BaseException
| SystemExit
| KeyboardInterrupt
| Exception
| SyntaxError
| IndentationError
| TimeoutError
| ValueError
| NameError
| AttributeError
| ImportError
| ModuleNotFoundError
| UserClass (name : string) (base : PyClass).

#[global] Instance PyClass_eq_dec : EqDecision PyClass.
Proof. solve_decision. Defined.

(** [cls.__name__] *)
Definition class_name (c : PyClass) : string :=
  match c with
  | BaseException => "BaseException"
  | SystemExit => "SystemExit"
  | KeyboardInterrupt => "KeyboardInterrupt"
  | Exception => "Exception"
  | SyntaxError => "SyntaxError"
  | IndentationError => "IndentationError"
  | TimeoutError => "TimeoutError"
  | ValueError => "ValueError"
  | NameError => "NameError"
  | AttributeError => "AttributeError"
  | ImportError => "ImportError"
  | ModuleNotFoundError => "ModuleNotFoundError"
  | UserClass name _ => name
  end.

(** [cls.__mro__]: the class followed by its ancestors. *)
Fixpoint mro (c : PyClass) : list PyClass :=
  c :: match c with
       | BaseException => []
       | SystemExit | KeyboardInterrupt | Exception => [BaseException]
       | SyntaxError | TimeoutError | ValueError | NameError
       | AttributeError | ImportError => [Exception; BaseException]
       | IndentationError => [SyntaxError; Exception; BaseException]
       | ModuleNotFoundError => [ImportError; Exception; BaseException]
       | UserClass _ base => mro base
       end.

(** A raised exception: its class, [str(e)], and the text
    [traceback.format_exc()] yields while it is being handled. *)
Record PyExc := {
  exc_class : PyClass;
  exc_str : string;
  exc_trace : string
}.

Definition isinstance (e : PyExc) (c : PyClass) : bool :=
  bool_decide (c ∈ mro (exc_class e)).

(** ** Compiled code *)

Inductive Chan := Stdout | Stderr.

(** What one statement of the executed program does to the process. *)
Inductive Instr : Type :=
| IPrint (s : string)                 (* write [s] to [sys.stdout] *)
| IPrintErr (s : string)              (* write [s] to [sys.stderr] *)
| IStore (x : string) (v : PyVal)     (* [x = <expression of value v>] *)
| ICopy (x y : string)                (* [x = y] *)
| ISetAttr (o a : string) (v : PyVal) (* [o.a = <expression of value v>] *)
| IImport (m : string)                (* [import m] *)
| ISleep (ms : N)                     (* [time.sleep(ms / 1000)] *)
| IClose (c : Chan).                  (* [sys.stdout.close()], or the same
                                         on [sys.stderr] *)

Inductive Ending : Type :=
| Return
| Raise (e : PyExc)
| Hang.

Record Code := {
  body : list Instr;
  ending : Ending
}.

(** ** The process *)

Inductive Obj : Type :=
| OStream (text : string)
| ODict (d : gmap string PyVal)
| OModule (attrs : gmap string PyVal)
| OOpaque (repr : string)
| OClosed.                 (* a text stream after [close()] *)

(** A log of the capture installations and dispatches, kept for
    inspection only. *)
Inductive Event : Type :=
| EvRedirect (c : Chan) (target : loc)
| EvRestore (c : Chan) (target : loc)
| EvExec (compiled_code : Code) (exec_globals : loc).

Record Proc := {
  heap : list Obj;
  sys_stdout : loc;        (* [sys.stdout] *)
  sys_stderr : loc;        (* [sys.stderr] *)
  builtins : loc;          (* the namespace [__builtins__] stands for in
                              main.py: the builtins module *)
  modules : gmap string loc;   (* [sys.modules] *)
  clock : N;               (* wall clock, in milliseconds *)
  events : list Event
}.

Definition set_heap (h : list Obj) (σ : Proc) : Proc :=
  {| heap := h; sys_stdout := sys_stdout σ; sys_stderr := sys_stderr σ;
     builtins := builtins σ; modules := modules σ;
     clock := clock σ; events := events σ |}.

Definition set_chan (c : Chan) (l : loc) (σ : Proc) : Proc :=
  {| heap := heap σ;
     sys_stdout := match c with Stdout => l | Stderr => sys_stdout σ end;
     sys_stderr := match c with Stdout => sys_stderr σ | Stderr => l end;
     builtins := builtins σ; modules := modules σ;
     clock := clock σ; events := events σ |}.

Definition get_chan (c : Chan) (σ : Proc) : loc :=
  match c with Stdout => sys_stdout σ | Stderr => sys_stderr σ end.

Definition set_clock (t : N) (σ : Proc) : Proc :=
  {| heap := heap σ; sys_stdout := sys_stdout σ; sys_stderr := sys_stderr σ;
     builtins := builtins σ; modules := modules σ;
     clock := t; events := events σ |}.

Definition log (ev : Event) (σ : Proc) : Proc :=
  {| heap := heap σ; sys_stdout := sys_stdout σ; sys_stderr := sys_stderr σ;
     builtins := builtins σ; modules := modules σ;
     clock := clock σ; events := events σ ++ [ev] |}.

(** *** Heap operations *)

Definition alloc (o : Obj) (σ : Proc) : loc * Proc :=
  (length (heap σ), set_heap (heap σ ++ [o]) σ).

Definition attribute_error (a : string) : PyExc :=
  {| exc_class := AttributeError;
     exc_str := "object has no attribute '" +:+ a +:+ "'";
     exc_trace := "Traceback (most recent call last):" +:+ nl +:+
                  "AttributeError: object has no attribute '" +:+ a +:+ "'"
                  +:+ nl |}.

(** What a closed text stream answers every operation with. *)
Definition closed_file : PyExc :=
  {| exc_class := ValueError;
     exc_str := "I/O operation on closed file";
     exc_trace := "Traceback (most recent call last):" +:+ nl +:+
                  "ValueError: I/O operation on closed file" +:+ nl |}.

(** [s.getvalue()]: the text of an open stream; a closed one raises. *)
Definition getvalue (l : loc) (σ : Proc) : string + PyExc :=
  match heap σ !! l with
  | Some (OStream text) => inl text
  | Some OClosed => inr closed_file
  | _ => inr (attribute_error "getvalue")
  end.

(** [s.write(text)] *)
Definition stream_write (l : loc) (s : string) (σ : Proc)
    : option PyExc * Proc :=
  match heap σ !! l with
  | Some (OStream text) =>
      (None, set_heap (<[l := OStream (text +:+ s)]> (heap σ)) σ)
  | Some OClosed => (Some closed_file, σ)
  | _ => (Some (attribute_error "write"), σ)
  end.

(** [s.close()]: the text is dropped; closing twice is allowed. *)
Definition stream_close (l : loc) (σ : Proc) : option PyExc * Proc :=
  match heap σ !! l with
  | Some (OStream _) | Some OClosed =>
      (None, set_heap (<[l := OClosed]> (heap σ)) σ)
  | _ => (Some (attribute_error "close"), σ)
  end.

(** [d.get(x)] on the dict at [g] *)
Definition dict_get (g : loc) (x : string) (σ : Proc) : option PyVal :=
  match heap σ !! g with
  | Some (ODict d) => d !! x
  | _ => None
  end.

(** [d[x] = v] *)
Definition dict_set (g : loc) (x : string) (v : PyVal) (σ : Proc) : Proc :=
  match heap σ !! g with
  | Some (ODict d) => set_heap (<[g := ODict (<[x := v]> d)]> (heap σ)) σ
  | _ => σ
  end.

(** Resolution of a global name by code running against the globals dict
    [g]: the dict first, then the attributes of the object its
    [__builtins__] entry refers to. *)
Definition lookup_name (g : loc) (x : string) (σ : Proc) : option PyVal :=
  match dict_get g x σ with
  | Some v => Some v
  | None =>
      match dict_get g "__builtins__" σ with
      | Some (VRef b) =>
          match heap σ !! b with
          | Some (OModule attrs) => attrs !! x
          | _ => None
          end
      | _ => None
      end
  end.

Definition name_error (x : string) : PyExc :=
  {| exc_class := NameError;
     exc_str := "name '" +:+ x +:+ "' is not defined";
     exc_trace := "Traceback (most recent call last):" +:+ nl +:+
                  "NameError: name '" +:+ x +:+ "' is not defined" +:+ nl |}.

Definition module_not_found (m : string) : PyExc :=
  {| exc_class := ModuleNotFoundError;
     exc_str := "No module named '" +:+ m +:+ "'";
     exc_trace := "Traceback (most recent call last):" +:+ nl +:+
                  "ModuleNotFoundError: No module named '" +:+ m +:+ "'"
                  +:+ nl |}.

(** One statement of the executed program, run against the globals dict
    [g].  The result is the exception it raises, if any. *)
Definition exec_instr (g : loc) (i : Instr) (σ : Proc) : option PyExc * Proc :=
  match i with
  | IPrint s => stream_write (sys_stdout σ) s σ
  | IPrintErr s => stream_write (sys_stderr σ) s σ
  | IStore x v => (None, dict_set g x v σ)
  | ICopy x y =>
      match lookup_name g y σ with
      | Some v => (None, dict_set g x v σ)
      | None => (Some (name_error y), σ)
      end
  | ISetAttr o a v =>
      match lookup_name g o σ with
      | Some (VRef l) =>
          match heap σ !! l with
          | Some (OModule attrs) =>
              (None, set_heap (<[l := OModule (<[a := v]> attrs)]> (heap σ)) σ)
          | _ => (Some (attribute_error a), σ)
          end
      | Some _ => (Some (attribute_error a), σ)
      | None => (Some (name_error o), σ)
      end
  | IImport m =>
      match modules σ !! m with
      | Some l => (None, dict_set g m (VRef l) σ)
      | None => (Some (module_not_found m), σ)
      end
  | ISleep _ => (None, σ)
  | IClose c => stream_close (get_chan c σ) σ
  end.

(** Wall-clock cost of a statement, in milliseconds. *)
Definition cost (i : Instr) : N :=
  match i with
  | ISleep ms => ms
  | _ => 0%N
  end.

(** ** Effectful code: state passing over [Proc] *)

Definition M (A : Type) : Type := Proc → A * Proc.

#[global] Instance M_ret : MRet M := λ A a σ, (a, σ).
#[global] Instance M_bind : MBind M :=
  λ A B f m σ, let '(a, σ') := m σ in f a σ'.

Definition gets {A : Type} (f : Proc → A) : M A := λ σ, (f σ, σ).
Definition modify (f : Proc → Proc) : M unit := λ σ, (tt, f σ).

(** [StringIO()] *)
Definition StringIO : M loc := alloc (OStream "").

(** A dict display [{...}] *)
Definition new_dict (d : gmap string PyVal) : M loc := alloc (ODict d).

(** [time.time()] *)
Definition time_time : M N := gets clock.

(** [redirect_stdout(target).__enter__()] and its [stderr] twin: remember
    the current stream, install [target]. *)
Definition redirect (c : Chan) (target : loc) : M loc :=
  old ← gets (get_chan c);
  modify (set_chan c target);;
  modify (log (EvRedirect c target));;
  mret old.

(** [__exit__]: put the remembered stream back. *)
Definition restore (c : Chan) (old : loc) : M unit :=
  modify (set_chan c old);;
  modify (log (EvRestore c old)).

(** ** [execute_code_with_timeout] (main.py, lines 56-121) *)

Record Outcome := {
  success : bool;
  stdout : string;
  stderr : string;
  result : PyVal;            (* [VNone] is Python's [None]: no result *)
  error : option string;
  execution_time : Q
}.

(** A call either returns its dict or lets an exception propagate. *)
Inductive Result : Type :=
| Returned (o : Outcome)
| Propagated (e : PyExc).

(** The locals of a call suspended at the [await] of line 90. *)
Record Frame := {
  fr_timeout : Z;
  fr_start_time : N;
  fr_stdout_capture : loc;
  fr_stderr_capture : loc;
  fr_exec_globals : loc;
  fr_compiled_code : Code;
  fr_old_stdout : loc;
  fr_old_stderr : loc
}.

(** How the [await] ends: the worker returned, the worker raised, or
    [wait_for] gave up. *)
Inductive Wait : Type :=
| Done
| Failed (e : PyExc)
| TimedOut.

(** The exception [asyncio.wait_for] raises at the deadline. *)
Definition timeout_exc : PyExc :=
  {| exc_class := TimeoutError; exc_str := ""; exc_trace := "" |}.

(** The three [except] clauses, lines 105-110, tried in order.  [None]: no
    clause matches and the exception propagates. *)
Definition except_clauses (timeout : Z) (e : PyExc) : option string :=
  if isinstance e TimeoutError then
    Some ("Execution timed out after " +:+ str_int timeout +:+ " seconds")
  else if isinstance e SyntaxError then
    Some ("Syntax error: " +:+ exc_str e)
  else if isinstance e Exception then
    Some (class_name (exc_class e) +:+ ": " +:+ exc_str e +:+ nl
          +:+ exc_trace e)
  else None.

Definition seconds (ms : N) : Q := Z.of_N ms # 1000.

(** Lines 112-121.  The two [getvalue()] calls of the dict display are
    evaluated in order, outside the [try] statement: what they raise
    leaves the call. *)
Definition build (start_time : N) (stdout_capture stderr_capture : loc)
    (success : bool) (result : PyVal) (error : option string) : M Result :=
  now ← time_time;
  out ← gets (getvalue stdout_capture);
  match out with
  | inr e => mret (Propagated e)
  | inl out =>
      err ← gets (getvalue stderr_capture);
      match err with
      | inr e => mret (Propagated e)
      | inl err =>
          mret (Returned {| success := success; stdout := out;
                            stderr := err; result := result;
                            error := error;
                            execution_time := seconds (now - start_time) |})
      end
  end.

(** An exception reaching the [try] statement of line 82. *)
Definition handle (timeout : Z) (start_time : N)
    (stdout_capture stderr_capture : loc) (e : PyExc) : M Result :=
  match except_clauses timeout e with
  | Some error =>
      build start_time stdout_capture stderr_capture false VNone (Some error)
  | None => mret (Propagated e)
  end.

(** The worker has ended with [w] at [t], not after the deadline.  The
    wait ends that way if the bound is positive; with a bound that is not
    positive [wait_for] gives up without waiting, whatever the worker has
    done. *)
Definition settle (deadline : Z) (w : Wait) (t : N) (done : list Instr)
    (σ : Proc) : Wait * N * list Instr * Proc :=
  if (0 <? deadline)%Z then (w, t, done, σ)
  else (TimedOut, Z.to_N deadline, done, σ).

(** The worker, run with nothing else running in the process, up to the
    moment the [await] ends.  [deadline] is in milliseconds after the
    dispatch and [t] is the time elapsed since then.  The worker is
    started by the dispatch itself, so the statements due no later than
    the deadline run, also under a bound that is not positive; a worker
    ending exactly at the deadline wins the race.  Returns how the wait
    ended, when, and the statements run so far. *)
Fixpoint run_worker (g : loc) (deadline : Z) (t : N) (done : list Instr)
    (rest : list Instr) (fin : Ending) (σ : Proc)
    : Wait * N * list Instr * Proc :=
  if (Z.max 0 deadline <? Z.of_N t)%Z then
    (TimedOut, Z.to_N deadline, done, σ)
  else
    match rest with
    | [] =>
        match fin with
        | Return => settle deadline Done t done σ
        | Raise e => settle deadline (Failed e) t done σ
        | Hang => (TimedOut, Z.to_N deadline, done, σ)
        end
    | i :: rest' =>
        match exec_instr g i σ with
        | (Some e, σ') => settle deadline (Failed e) t done σ'
        | (None, σ') =>
            run_worker g deadline (t + cost i)%N (done ++ [i]) rest' fin σ'
        end
    end.

(** [await asyncio.wait_for(loop.run_in_executor(None, exec, compiled_code,
    exec_globals), timeout=timeout)] with no other request in flight. *)
Definition wait_for (fr : Frame) : M Wait := λ σ,
  let c := fr_compiled_code fr in
  let '(w, t, _, σ') :=
    run_worker (fr_exec_globals fr) (1000 * fr_timeout fr) 0 []
      (body c) (ending c) σ in
  (w, set_clock (clock σ' + t) σ').

Section Engine.

(** [compile(code, "<string>", "exec")]: the compiled code, or the
    exception raised. *)
Variable compile : string → Code + PyExc.

(** Lines 67-97: from the call to the suspension at the [await].  A
    compilation failure ends the call here. *)
Definition enter_handler (code : string) (timeout : Z)
    : M (Frame + Result) :=
  start_time ← time_time;
  stdout_capture ← StringIO;
  stderr_capture ← StringIO;
  b ← gets builtins;
  exec_globals ← new_dict {[ "__builtins__" := VRef b;
                             "__name__" := VStr "__main__" ]};
  match compile code with
  | inr e =>
      r ← handle timeout start_time stdout_capture stderr_capture e;
      mret (inr r)
  | inl compiled_code =>
      old_stdout ← redirect Stdout stdout_capture;
      old_stderr ← redirect Stderr stderr_capture;
      modify (log (EvExec compiled_code exec_globals));;
      mret (inl {| fr_timeout := timeout;
                   fr_start_time := start_time;
                   fr_stdout_capture := stdout_capture;
                   fr_stderr_capture := stderr_capture;
                   fr_exec_globals := exec_globals;
                   fr_compiled_code := compiled_code;
                   fr_old_stdout := old_stdout;
                   fr_old_stderr := old_stderr |})
  end.

(** Lines 98-121: the call resumed after the [await].  The [with] block
    is left on every path, undoing the redirections in reverse order. *)
Definition resume_handler (fr : Frame) (w : Wait) : M Result :=
  restore Stderr (fr_old_stderr fr);;
  restore Stdout (fr_old_stdout fr);;
  match w with
  | Done =>
      r ← gets (dict_get (fr_exec_globals fr) "result");
      build (fr_start_time fr) (fr_stdout_capture fr)
        (fr_stderr_capture fr) true (default VNone r) None
  | Failed e =>
      handle (fr_timeout fr) (fr_start_time fr) (fr_stdout_capture fr)
        (fr_stderr_capture fr) e
  | TimedOut =>
      handle (fr_timeout fr) (fr_start_time fr) (fr_stdout_capture fr)
        (fr_stderr_capture fr) timeout_exc
  end.

Definition execute_code_with_timeout (code : string) (timeout : Z)
    : M Result :=
  s ← enter_handler code timeout;
  match s with
  | inr r => mret r
  | inl fr => w ← wait_for fr; resume_handler fr w
  end.

End Engine.

(** ** [execute_python_code] (main.py, lines 151-175) *)

Record CodeExecutionRequest := {
  code : string;
  timeout : option Z
}.

(** What the endpoint hands back to the framework: the response model, an
    [HTTPException], or an exception the engine let through. *)
Inductive Reply : Type :=
| CodeExecutionResponse (o : Outcome)
| HTTPException (status_code : Z) (detail : string)
| Unhandled (e : PyExc).

(** What the endpoint makes of the engine's answer: the response model
    around a returned dict, whose [result] field is [Optional[Any]]; an
    exception goes on to the framework. *)
Definition reply_of (r : Result) : Reply :=
  match r with
  | Returned o => CodeExecutionResponse o
  | Propagated e => Unhandled e
  end.

(** The characters [str.isspace] accepts, by the length of their UTF-8
    encoding.  One byte: U+0009 to U+000D, U+001C to U+0020. *)
Definition space1 (a : ascii) : bool :=
  let n := nat_of_ascii a in
  ((9 <=? n) && (n <=? 13) || (28 <=? n) && (n <=? 32))%nat.

(** Two bytes: U+0085 and U+00A0. *)
Definition space2 (a b : ascii) : bool :=
  let m := nat_of_ascii a in
  let n := nat_of_ascii b in
  ((m =? 194) && ((n =? 133) || (n =? 160)))%nat.

(** Three bytes: U+1680, U+2000 to U+200A, U+2028, U+2029, U+202F,
    U+205F and U+3000. *)
Definition space3 (a b c : ascii) : bool :=
  let m := nat_of_ascii a in
  let n := nat_of_ascii b in
  let k := nat_of_ascii c in
  ((m =? 225) && (n =? 154) && (k =? 128)
   || (m =? 226) && (n =? 128)
      && ((128 <=? k) && (k <=? 138) || (k =? 168) || (k =? 169)
          || (k =? 175))
   || (m =? 226) && (n =? 129) && (k =? 159)
   || (m =? 227) && (n =? 128) && (k =? 128))%nat.

(** [s.lstrip()] *)
Fixpoint lstrip (s : string) : string :=
  match s with
  | String a s1 =>
      if space1 a then lstrip s1
      else
        match s1 with
        | String b s2 =>
            if space2 a b then lstrip s2
            else
              match s2 with
              | String c s3 => if space3 a b c then lstrip s3 else s
              | EmptyString => s
              end
        | EmptyString => s
        end
  | EmptyString => s
  end.

(** [lstrip] on the string read from its end. *)
Fixpoint lstrip_rev (s : string) : string :=
  match s with
  | String a s1 =>
      if space1 a then lstrip_rev s1
      else
        match s1 with
        | String b s2 =>
            if space2 b a then lstrip_rev s2
            else
              match s2 with
              | String c s3 => if space3 c b a then lstrip_rev s3 else s
              | EmptyString => s
              end
        | EmptyString => s
        end
  | EmptyString => s
  end.

(** [s.rstrip()] *)
Definition rstrip (s : string) : string :=
  String.rev (lstrip_rev (String.rev s)).

(** [s.strip()] *)
Definition strip (s : string) : string := rstrip (lstrip s).

(** Truthiness of a [str]. *)
Definition str_truthy (s : string) : bool :=
  match s with
  | EmptyString => false
  | String _ _ => true
  end.

(** [a or b] for [a : Optional[int]]: [a] when it is truthy, that is
    neither [None] nor [0]. *)
Definition or_int (a : option Z) (b : Z) : Z :=
  match a with
  | None => b
  | Some n => if (n =? 0)%Z then b else n
  end.

Section Endpoint.

(** [PYTHON_EXECUTE_TIMEOUT], read once from the environment at import. *)
Variable PYTHON_EXECUTE_TIMEOUT : Z.
Variable compile : string → Code + PyExc.

(** Lines 164-167: the bound handed to the engine. *)
Definition effective_timeout (request : CodeExecutionRequest) : Z :=
  let timeout := or_int (timeout request) PYTHON_EXECUTE_TIMEOUT in
  Z.min timeout PYTHON_EXECUTE_TIMEOUT.

Definition execute_python_code (request : CodeExecutionRequest) : M Reply :=
  let timeout := effective_timeout request in
  if negb (str_truthy (strip (code request))) then
    mret (HTTPException 400 "No code provided")
  else
    result ← execute_code_with_timeout compile (code request) timeout;
    mret (reply_of result).

End Endpoint.

(** ** Requests in flight together

    The handler is a coroutine: between its suspension at the [await] and
    its resumption the event loop runs other handlers, and the workers run
    on threads of their own.  A schedule lists what happens in which
    order. *)

Inductive Task : Type :=
| Answered (r : Result)
    (* the call ended without dispatching a worker *)
| Dispatched (fr : Frame) (rest : list Instr) (raised : option PyExc)
    (ready : N) (response : option Result).
    (* worker dispatched; [rest] is what it has yet to run, [raised] the
       exception that stopped it, [ready] the time its last statement was
       or will be over, [response] what the call returned *)

Inductive Step : Type :=
| Request (r : nat) (code : string) (timeout : Z)
    (* request [r] arrives; its handler runs up to the [await] *)
| Work (r : nat)       (* the worker of [r] runs its next statement *)
| Deliver (r : nat)    (* the worker of [r] has ended; its handler resumes *)
| Expire (r : nat)     (* the deadline of [r] passes; its handler resumes *)
| Tick (ms : N).       (* time passes *)

Record Server := {
  proc : Proc;
  tasks : gmap nat Task
}.

(** The time at which [wait_for] gives up. *)
Definition deadline_of (fr : Frame) : N :=
  (fr_start_time fr + Z.to_N (1000 * fr_timeout fr))%N.

(** The worker has a statement left to run. *)
Definition runnable (rest : list Instr) (raised : option PyExc) : bool :=
  match raised, rest with
  | None, _ :: _ => true
  | _, _ => false
  end.

(** How the worker ended, if it has. *)
Definition ended (fr : Frame) (rest : list Instr) (raised : option PyExc)
    : option Wait :=
  match raised, rest with
  | Some e, _ => Some (Failed e)
  | None, _ :: _ => None
  | None, [] =>
      match ending (fr_compiled_code fr) with
      | Return => Some Done
      | Raise e => Some (Failed e)
      | Hang => None
      end
  end.

(** A worker over at [ready] is awaited with success: the bound is
    positive and the deadline had not passed. *)
Definition in_time (fr : Frame) (ready : N) : bool :=
  (0 <? fr_timeout fr)%Z && (ready <=? deadline_of fr)%N.

(** At the deadline the worker goes first: it has a statement due by
    then, or it has ended in time and its handler is yet to resume. *)
Definition worker_first (fr : Frame) (rest : list Instr)
    (raised : option PyExc) (ready : N) : bool :=
  (ready <=? deadline_of fr)%N
  && (runnable rest raised
      || bool_decide (is_Some (ended fr rest raised)) && in_time fr ready).

Section Schedule.

Variable compile : string → Code + PyExc.

Definition resume (r : nat) (fr : Frame) (rest : list Instr)
    (raised : option PyExc) (ready : N) (w : Wait) (s : Server) : Server :=
  let '(res, σ) := resume_handler fr w (proc s) in
  {| proc := σ;
     tasks := <[r := Dispatched fr rest raised ready (Some res)]> (tasks s) |}.

(** One step of a schedule.  Nothing happens before its time: a worker
    starts a statement once the previous one is over, a handler resumes
    with the worker's end once the worker has ended in time, and with a
    timeout once the deadline has passed and the worker is not to go
    first.  A step that is not due leaves the server as it is.  Workers
    and handlers may be late: [Tick] is always possible. *)
Definition step (s : Server) (ev : Step) : Server :=
  let now := clock (proc s) in
  match ev with
  | Request r code timeout =>
      match tasks s !! r with
      | Some _ => s
      | None =>
          match enter_handler compile code timeout (proc s) with
          | (inr res, σ) =>
              {| proc := σ; tasks := <[r := Answered res]> (tasks s) |}
          | (inl fr, σ) =>
              {| proc := σ;
                 tasks := <[r := Dispatched fr (body (fr_compiled_code fr))
                                  None now None]> (tasks s) |}
          end
      end
  | Work r =>
      match tasks s !! r with
      | Some (Dispatched fr (i :: rest) None ready response) =>
          if (ready <=? now)%N then
            let '(raised, σ) := exec_instr (fr_exec_globals fr) i (proc s) in
            {| proc := σ;
               tasks := <[r := Dispatched fr rest raised (now + cost i)
                                response]> (tasks s) |}
          else s
      | _ => s
      end
  | Deliver r =>
      match tasks s !! r with
      | Some (Dispatched fr rest raised ready None) =>
          match ended fr rest raised with
          | Some w =>
              if (ready <=? now)%N && in_time fr ready then
                resume r fr rest raised ready w s
              else s
          | None => s
          end
      | _ => s
      end
  | Expire r =>
      match tasks s !! r with
      | Some (Dispatched fr rest raised ready None) =>
          if (deadline_of fr <=? now)%N
             && negb (worker_first fr rest raised ready) then
            resume r fr rest raised ready TimedOut s
          else s
      | _ => s
      end
  | Tick ms =>
      {| proc := set_clock (now + ms) (proc s); tasks := tasks s |}
  end.

Definition run (schedule : list Step) (s : Server) : Server :=
  foldl step s schedule.

(** What request [r] got back, if its handler has returned. *)
Definition response (r : nat) (s : Server) : option Result :=
  match tasks s !! r with
  | Some (Answered res) => Some res
  | Some (Dispatched _ _ _ _ response) => response
  | None => None
  end.

End Schedule.

(** ** A process to run examples in *)

(** The process right after start-up: the builtins module with two of its
    functions, and the console streams. *)
Definition boot : Proc :=
  {| heap := [ OModule {[ "len" := VRef 1%nat; "print" := VRef 2%nat ]};
               OOpaque "<built-in function len>";
               OOpaque "<built-in function print>";
               OStream "";
               OStream "" ];
     sys_stdout := 3%nat;
     sys_stderr := 4%nat;
     builtins := 0%nat;
     modules := {[ "builtins" := 0%nat ]};
     clock := 0%N;
     events := [] |}.

Definition raises (c : PyClass) (msg : string) : PyExc :=
  {| exc_class := c;
     exc_str := msg;
     exc_trace := "Traceback (most recent call last):" +:+ nl +:+
                  class_name c +:+ ": " +:+ msg +:+ nl |}.

Definition pass : Code := {| body := []; ending := Return |}.

(** [import sys; sys.stdout.close()], then [while True: pass] on a line
    of its own. *)
Definition close_then_loop : string :=
  "import sys; sys.stdout.close()" +:+ nl +:+ "while True: pass".

(** U+2003, EM SPACE. *)
Definition em_space : string :=
  String "226"%char (String "128"%char (String "131"%char EmptyString)).

(** [x = 1] followed by a null byte. *)
Definition null_byte_source : string :=
  "x = 1" +:+ String "000"%char EmptyString.

(** What CPython makes of the programs used as inputs below: the effects
    of their statements on the process, without the imports of modules
    the process does not list.  Any other text stands for [pass]. *)
Definition programs : list (string * (Code + PyExc)) :=
  [ ("print('hi'); result = 1+1",
     inl {| body := [IPrint ("hi" +:+ nl); IStore "result" (VInt 2)];
            ending := Return |});
    ("x =",
     inr {| exc_class := SyntaxError;
            exc_str := "invalid syntax (<string>, line 1)";
            exc_trace := "" |});
    ("while True: pass",
     inl {| body := []; ending := Hang |});
    ("raise ValueError('boom')",
     inl {| body := []; ending := Raise (raises ValueError "boom") |});
    ("print('partial'); raise ValueError('boom')",
     inl {| body := [IPrint ("partial" +:+ nl)];
            ending := Raise (raises ValueError "boom") |});
    ("raise SyntaxError('boom')",
     inl {| body := []; ending := Raise (raises SyntaxError "boom") |});
    ("import asyncio; raise asyncio.TimeoutError('slow')",
     inl {| body := []; ending := Raise (raises TimeoutError "slow") |});
    ("raise SystemExit(1)",
     inl {| body := []; ending := Raise (raises SystemExit "1") |});
    ("result = len",
     inl {| body := [ICopy "result" "len"]; ending := Return |});
    ("x = 5",
     inl {| body := [IStore "x" (VInt 5)]; ending := Return |});
    ("result = x",
     inl {| body := [ICopy "result" "x"]; ending := Return |});
    ("import builtins; builtins.leak = 42",
     inl {| body := [IImport "builtins";
                     ISetAttr "builtins" "leak" (VInt 42)];
            ending := Return |});
    ("result = leak",
     inl {| body := [ICopy "result" "leak"]; ending := Return |});
    ("import time; time.sleep(1); print('A')",
     inl {| body := [ISleep 1000; IPrint ("A" +:+ nl)]; ending := Return |});
    ("import time; time.sleep(1); print('B')",
     inl {| body := [ISleep 1000; IPrint ("B" +:+ nl)]; ending := Return |});
    ("import time; time.sleep(2); print('late')",
     inl {| body := [ISleep 2000; IPrint ("late" +:+ nl)];
            ending := Return |});
    ("import sys; sys.stdout.close()",
     inl {| body := [IClose Stdout]; ending := Return |});
    ("import sys; sys.stdout.close(); raise ValueError('x')",
     inl {| body := [IClose Stdout];
            ending := Raise (raises ValueError "x") |});
    (close_then_loop,
     inl {| body := [IClose Stdout]; ending := Hang |});
    (null_byte_source,
     inr (raises ValueError "source code string cannot contain null bytes"))
  ].

Definition py_compile (source : string) : Code + PyExc :=
  match list_find (λ p, p.1 = source) programs with
  | Some (_, (_, c)) => c
  | None => inl pass
  end.

(** ** Vocabulary of the statements below *)


(** What the name [x] resolves to in the scope a run of [source] starts
    with, in the process [σ]. *)
Definition scope_view (compile : string → Code + PyExc) (source : string)
    (timeout : Z) (x : string) (σ : Proc) : option PyVal :=
  match enter_handler compile source timeout σ with
  | (inl fr, σ1) => lookup_name (fr_exec_globals fr) x σ1
  | (inr _, _) => None
  end.

(** The process a call leaves behind. *)
Definition after (compile : string → Code + PyExc) (source : string)
    (timeout : Z) (σ : Proc) : Proc :=
  (execute_code_with_timeout compile source timeout σ).2.

(** The dict display of lines 77-80. *)
Definition fresh_globals (b : loc) : gmap string PyVal :=
  {[ "__builtins__" := VRef b; "__name__" := VStr "__main__" ]}.

(** The three objects a call creates first (lines 70-80), added to the
    heap of the process it found. *)
Definition with_locals (σ : Proc) : Proc :=
  set_heap (heap σ ++ [ OStream ""; OStream "";
                        ODict (fresh_globals (builtins σ)) ]) σ.

(** The process at the moment a call that found it in [σ] suspends, having
    compiled its source to [c]. *)
Definition dispatched (c : Code) (σ : Proc) : Proc :=
  let n := length (heap σ) in
  {| heap := heap (with_locals σ);
     sys_stdout := n;
     sys_stderr := S n;
     builtins := builtins σ;
     modules := modules σ;
     clock := clock σ;
     events := events σ ++ [ EvRedirect Stdout n; EvRedirect Stderr (S n);
                             EvExec c (S (S n)) ] |}.

(** ... and the locals of that call. *)
Definition frame_at (c : Code) (timeout : Z) (σ : Proc) : Frame :=
  let n := length (heap σ) in
  {| fr_timeout := timeout;
     fr_start_time := clock σ;
     fr_stdout_capture := n;
     fr_stderr_capture := S n;
     fr_exec_globals := S (S n);
     fr_compiled_code := c;
     fr_old_stdout := sys_stdout σ;
     fr_old_stderr := sys_stderr σ |}.



(** Two requests in flight together, each printing its own marker after a
    second of sleep. *)
Definition two_printers : list Step :=
  [ Request 1 "import time; time.sleep(1); print('A')" 10;
    Request 2 "import time; time.sleep(1); print('B')" 10;
    Work 1; Work 2; Tick 1000;
    Work 1; Work 2;
    Deliver 1; Deliver 2 ].

Definition idle : Server := {| proc := boot; tasks := ∅ |}.

(** A request whose worker outlives the wait: the worker starts a sleep
    of [ms] milliseconds, the deadline passes during the sleep and the
    handler answers, then the sleep is over and the worker runs its next
    statement. *)
Definition outlived (r : nat) (source : string) (timeout : Z) (ms : N)
    : list Step :=
  let d := Z.to_N (1000 * timeout) in
  [ Request r source timeout; Work r; Tick d; Expire r; Tick (ms - d);
    Work r ].


(** [s] is made of whitespace characters only. *)
Fixpoint blank (s : string) : bool :=
  match s with
  | EmptyString => true
  | String a s1 =>
      space1 a && blank s1
      || match s1 with
         | String b s2 =>
             space2 a b && blank s2
             || match s2 with
                | String c s3 => space3 a b c && blank s3
                | EmptyString => false
                end
         | EmptyString => false
         end
  end.

(** What a statement writes, and to which channel. *)
Definition writes (i : Instr) : option (Chan * string) :=
  match i with
  | IPrint s => Some (Stdout, s)
  | IPrintErr s => Some (Stderr, s)
  | _ => None
  end.

(** The statements [prog] run from [σ] to [σ'], none of them raising. *)
Inductive ran (g : loc) : list Instr → Proc → Proc → Prop :=
| ran_nil (σ : Proc) : ran g [] σ σ
| ran_cons (i : Instr) (prog : list Instr) (σ σ1 σ2 : Proc) :
    exec_instr g i σ = (None, σ1) → ran g prog σ1 σ2 →
    ran g (i :: prog) σ σ2.

(** What [getvalue] makes of an object. *)
Definition readout (o : Obj) : string + PyExc :=
  match o with
  | OStream text => inl text
  | OClosed => inr closed_file
  | _ => inr (attribute_error "getvalue")
  end.

(** The process as the [with] block of a call leaves it. *)
Definition restored (fr : Frame) (σ : Proc) : Proc :=
  log (EvRestore Stdout (fr_old_stdout fr))
    (set_chan Stdout (fr_old_stdout fr)
       (log (EvRestore Stderr (fr_old_stderr fr))
          (set_chan Stderr (fr_old_stderr fr) σ))).


(** The engine's answer as the endpoint passes it on. *)
Definition passed_on (x : Result * Proc) : Reply * Proc :=
  (reply_of x.1, x.2).

(** ** The information endpoints (main.py, lines 124-148 and 178-208) *)

(** What the endpoints read from the [torch] module once it is imported. *)
Record Torch := {
  cuda_is_available : bool;            (* [torch.cuda.is_available()] *)
  version_cuda : option string;        (* [torch.version.cuda] *)
  cuda_device_count : Z;               (* [torch.cuda.device_count()] *)
  cuda_get_device_name : string        (* [torch.cuda.get_device_name(0)] *)
}.

(** What the endpoints read from the interpreter and its environment. *)
Record Host := {
  import_torch : Torch + PyExc;        (* [import torch], or what it raises *)
  sys_version : string;                (* [sys.version] *)
  working_set : list (string * string);
                                       (* [pkg.key], [pkg.version] for the
                                          packages of [pkg_resources] *)
  environ : gmap string string         (* [os.environ] *)
}.

(** [os.getenv(name, default)] *)
Definition getenv_or (environ : gmap string string) (name default : string)
    : string :=
  match environ !! name with
  | Some v => v
  | None => default
  end.

(** [d.get(k)] on a dict value *)
Fixpoint assoc (k : string) (kvs : list (string * PyVal)) : option PyVal :=
  match kvs with
  | [] => None
  | (k', v) :: kvs' => if String.eqb k k' then Some v else assoc k kvs'
  end.

Definition field (k : string) (v : PyVal) : option PyVal :=
  match v with
  | VDict kvs => assoc k kvs
  | _ => None
  end.

Definition opt_str (o : option string) : PyVal :=
  match o with
  | Some s => VStr s
  | None => VNone
  end.

Section Info.

Variable PYTHON_EXECUTE_TIMEOUT : Z.
Variable host : Host.

(** Lines 124-131. *)
Definition root : PyVal :=
  VDict [ ("status", VStr "online");
          ("service", VStr "GPU Code Execution API");
          ("default_timeout", VInt PYTHON_EXECUTE_TIMEOUT) ].

(** Lines 134-148.  [import torch] is not guarded; once it has succeeded
    ['torch' in sys.modules] holds. *)
Definition health_check : PyVal + PyExc :=
  match import_torch host with
  | inr e => inr e
  | inl torch =>
      let torch_in_sys_modules := true in
      let gpu_available :=
        if torch_in_sys_modules then cuda_is_available torch else false in
      let gpu_name :=
        if gpu_available then cuda_get_device_name torch else "N/A" in
      inl (VDict [ ("status", VStr "healthy");
                   ("gpu_available", VBool gpu_available);
                   ("gpu_name", VStr gpu_name);
                   ("python_version", VStr (sys_version host));
                   ("timeout_setting", VInt PYTHON_EXECUTE_TIMEOUT) ])
  end.

(** Lines 178-208.  Here [import torch] sits in a [try] whose only clause
    is [except ImportError]. *)
Definition get_instance_info : PyVal + PyExc :=
  let installed_packages :=
    map (λ pkg, VDict [ ("name", VStr pkg.1); ("version", VStr pkg.2) ])
        (working_set host) in
  let gpu_info :=
    match import_torch host with
    | inl torch =>
        inl (VDict
               [ ("cuda_available", VBool (cuda_is_available torch));
                 ("cuda_version",
                  if cuda_is_available torch then opt_str (version_cuda torch)
                  else VNone);
                 ("gpu_count",
                  VInt (if cuda_is_available torch
                        then cuda_device_count torch else 0));
                 ("gpu_name",
                  if cuda_is_available torch
                  then VStr (cuda_get_device_name torch) else VNone) ])
    | inr e =>
        if isinstance e ImportError then
          inl (VDict [ ("cuda_available", VBool false);
                       ("note", VStr "PyTorch not installed") ])
        else inr e
    end in
  match gpu_info with
  | inr e => inr e
  | inl gpu_info =>
      inl (VDict
             [ ("python_version", VStr (sys_version host));
               ("gpu_info", gpu_info);
               ("installed_packages", VList installed_packages);
               ("environment",
                VDict [ ("PYTHON_EXECUTE_TIMEOUT",
                         VInt PYTHON_EXECUTE_TIMEOUT);
                        ("SOUNDFONT_PATH",
                         VStr (getenv_or (environ host) "SOUNDFONT_PATH"
                                 "Not set")) ]) ])
  end.

End Info.

(** ** [s3_test.py]

    The S3 service and [boto3] lie outside the repository.  A client is
    represented by what each of its operations answers; the script calls
    each operation at most once.  Besides what the script prints, the
    calls it makes are recorded, for inspection only.  The text printed is
    kept as UTF-8 bytes. *)

Module s3_test.

(** The module constants, lines 23-27. *)
Record Settings := {
  AWS_ACCESS_KEY_ID : option string;
  AWS_SECRET_ACCESS_KEY : option string;
  AWS_REGION : string;
  S3_ENDPOINT_URL : option string;
  BUCKET_NAME : string
}.

Definition settings (environ : gmap string string) : Settings :=
  {| AWS_ACCESS_KEY_ID := environ !! "AWS_ACCESS_KEY_ID";
     AWS_SECRET_ACCESS_KEY := environ !! "AWS_SECRET_ACCESS_KEY";
     AWS_REGION := getenv_or environ "AWS_REGION" "us-east-1";
     S3_ENDPOINT_URL := environ !! "S3_ENDPOINT_URL";
     BUCKET_NAME := getenv_or environ "S3_BUCKET_NAME" "narrated" |}.

(** Truthiness of an [Optional[str]]. *)
Definition truthy (o : option string) : bool :=
  match o with
  | Some s => str_truthy s
  | None => false
  end.

(** The keyword arguments of [boto3.client("s3", ...)].  [endpoint_url]
    is [None] when the key is not in the dict. *)
Record Config := {
  aws_access_key_id : option string;
  aws_secret_access_key : option string;
  region_name : string;
  endpoint_url : option string
}.

(** What a call into [boto3] may raise. *)
Inductive Failure : Type :=
| ClientError (code msg : string)
    (* [e.response['Error']['Code']] and [str(e)] *)
| NoCredentialsError (msg : string)
| OtherError (e : PyExc).
    (* any exception that is neither of the two *)

(** [str(e)] *)
Definition failure_str (f : Failure) : string :=
  match f with
  | ClientError _ msg => msg
  | NoCredentialsError msg => msg
  | OtherError e => exc_str e
  end.

(** [isinstance(e, Exception)]: both botocore classes derive from
    [Exception]. *)
Definition is_Exception (f : Failure) : bool :=
  match f with
  | ClientError _ _ => true
  | NoCredentialsError _ => true
  | OtherError e => isinstance e Exception
  end.

Record Object := {
  Key : string;
  Size : Z
}.

(** The response of [list_objects_v2], with its optional entries. *)
Record Listing := {
  KeyCount : option Z;
  Contents : option (list Object)
}.

Record Client := {
  list_buckets : Failure + option (list string);
    (* the ['Buckets'] entry of the response, if any *)
  head_bucket : string → Failure + unit;
  create_bucket : string → option string → Failure + unit;
    (* [Bucket], and the [LocationConstraint] if one is given *)
  list_objects_v2 : string → Z → Failure + Listing;
    (* [Bucket], [MaxKeys] *)
  put_object : string → string → string → string → Failure + unit;
    (* [Bucket], [Key], [Body], [ContentType] *)
  delete_object : string → string → Failure + unit
    (* [Bucket], [Key] *)
}.

Inductive Call : Type :=
| CClient (config : Config)
| CListBuckets
| CHeadBucket (bucket : string)
| CCreateBucket (bucket : string) (location : option string)
| CListObjects (bucket : string) (max_keys : Z)
| CPutObject (bucket key body content_type : string)
| CDeleteObject (bucket key : string).

Record World := {
  out : list string;     (* the arguments of [print], in order *)
  err : list string;     (* what [traceback.print_exc()] wrote *)
  calls : list Call
}.

Definition nothing : World := {| out := []; err := []; calls := [] |}.

(** How a piece of the function ends other than by falling through: an
    exception, or a [return]. *)
Inductive Exit : Type :=
| Throw (f : Failure)
| ReturnValue (b : bool).

Definition T (A : Type) : Type := World → (A + Exit) * World.

#[global] Instance T_ret : MRet T := λ A a w, (inl a, w).
#[global] Instance T_bind : MBind T :=
  λ A B f m w,
    match m w with
    | (inl a, w') => f a w'
    | (inr x, w') => (inr x, w')
    end.

Definition print (s : string) : T unit := λ w,
  (inl tt, {| out := out w ++ [s]; err := err w; calls := calls w |}).

Definition print_exc (e : Failure) : T unit := λ w,
  (inl tt,
   {| out := out w;
      err := err w ++ [match e with
                       | OtherError e => exc_trace e
                       | _ => failure_str e
                       end];
      calls := calls w |}).

Definition return_ {A : Type} (b : bool) : T A := λ w, (inr (ReturnValue b), w).

(** A call into [boto3]: recorded, then answered. *)
Definition call {A : Type} (c : Call) (answer : Failure + A) : T A := λ w,
  (match answer with
   | inl f => inr (Throw f)
   | inr a => inl a
   end,
   {| out := out w; err := err w; calls := calls w ++ [c] |}).

(** [try: body except ...]: [handler] gives the clause that matches the
    exception, if one does. *)
Definition try_ {A : Type} (body : T A) (handler : Failure → option (T A))
    : T A := λ w,
  match body w with
  | (inr (Throw f), w') =>
      match handler f with
      | Some clause => clause w'
      | None => (inr (Throw f), w')
      end
  | r => r
  end.

(** [m] ends with [r], having made the calls [cs], whatever came
    before. *)
Definition ends {A : Type} (m : T A) (r : A + Exit) (cs : list Call)
    : Prop :=
  ∀ w, (m w).1 = r ∧ calls (m w).2 = calls w ++ cs.

(** ["=" * 60] *)
Fixpoint times (s : string) (n : nat) : string :=
  match n with
  | O => ""
  | S n' => s +:+ times s n'
  end.

Section Script.

Variable conf : Settings.

(** [boto3.client("s3", **config)] *)
Variable boto3_client : Config → Failure + Client.

(** [datetime.now().isoformat()] at line 49,
    [datetime.now().strftime('%Y%m%d_%H%M%S')] at line 113 and
    [datetime.now().isoformat()] at line 114. *)
Variable now_49 : string.
Variable now_113 : string.
Variable now_114 : string.

(** Lines 30-41. *)
Definition config : Config :=
  {| aws_access_key_id := AWS_ACCESS_KEY_ID conf;
     aws_secret_access_key := AWS_SECRET_ACCESS_KEY conf;
     region_name := AWS_REGION conf;
     endpoint_url :=
       if truthy (S3_ENDPOINT_URL conf) then S3_ENDPOINT_URL conf
       else None |}.

Definition get_s3_client : T Client :=
  call (CClient config) (boto3_client config).

(** Lines 72-99. *)
Definition check_bucket (s3 : Client) : T unit :=
  let bucket := BUCKET_NAME conf in
  print (nl +:+ "[Test 2] Checking bucket '" +:+ bucket +:+ "'...");;
  try_
    (call (CHeadBucket bucket) (head_bucket s3 bucket);;
     print ("✓ Bucket '" +:+ bucket +:+ "' exists and is accessible"))
    (λ e,
       match e with
       | ClientError error_code _ =>
           Some
             (if String.eqb error_code "404" then
                print ("⚠ Bucket '" +:+ bucket +:+ "' does not exist");;
                print "  Attempting to create bucket...";;
                try_
                  ((if String.eqb (AWS_REGION conf) "us-east-1" then
                      call (CCreateBucket bucket None)
                        (create_bucket s3 bucket None)
                    else
                      call (CCreateBucket bucket (Some (AWS_REGION conf)))
                        (create_bucket s3 bucket (Some (AWS_REGION conf))));;
                   print ("✓ Bucket '" +:+ bucket
                          +:+ "' created successfully"))
                  (λ create_error,
                     if is_Exception create_error then
                       Some
                         (print ("❌ Failed to create bucket: "
                                 +:+ failure_str create_error);;
                          return_ false)
                     else None)
              else if String.eqb error_code "403" then
                print ("❌ Access denied to bucket '" +:+ bucket +:+ "'");;
                return_ false
              else
                print ("❌ Error checking bucket: " +:+ failure_str e);;
                return_ false)
       | _ => None
       end).

(** Lines 101-109. *)
Definition list_objects (s3 : Client) : T unit :=
  let bucket := BUCKET_NAME conf in
  print (nl +:+ "[Test 3] Listing objects in '" +:+ bucket +:+ "'...");;
  response ← call (CListObjects bucket 10) (list_objects_v2 s3 bucket 10);
  let object_count := default 0%Z (KeyCount response) in
  print ("✓ Listed objects. Found " +:+ str_int object_count
         +:+ " objects (showing max 10)");;
  match Contents response with
  | Some contents =>
      foldr (λ obj rest,
               print ("   - " +:+ Key obj +:+ " (" +:+ str_int (Size obj)
                      +:+ " bytes)");;
               rest)
            (mret tt) (take 5 contents)
  | None => mret tt
  end.

(** Lines 111-130. *)
Definition write_test (s3 : Client) : T unit :=
  let bucket := BUCKET_NAME conf in
  print (nl +:+ "[Test 4] Testing write access...");;
  let test_key := "_test/connectivity_test_" +:+ now_113 +:+ ".txt" in
  let test_content := "Connectivity test at " +:+ now_114 in
  try_
    (call (CPutObject bucket test_key test_content "text/plain")
       (put_object s3 bucket test_key test_content "text/plain");;
     print ("✓ Successfully wrote test file: " +:+ test_key);;
     call (CDeleteObject bucket test_key) (delete_object s3 bucket test_key);;
     print "✓ Cleaned up test file")
    (λ e,
       match e with
       | ClientError _ _ =>
           Some
             (print ("⚠ Write test failed: " +:+ failure_str e);;
              print "  (This may be expected if bucket is read-only)")
       | _ => None
       end).

(** Lines 67-135: the four tests, once the client is there. *)
Definition run_tests (s3 : Client) : T bool :=
  print (nl +:+ "[Test 1] Verifying credentials...");;
  buckets ← call CListBuckets (list_buckets s3);
  print ("✓ Credentials valid. Found "
         +:+ str_int (Z.of_nat (length (default [] buckets)))
         +:+ " buckets");;
  check_bucket s3;;
  list_objects s3;;
  write_test s3;;
  print (nl +:+ times "=" 60);;
  print "✅ S3 CONNECTIVITY TEST PASSED";;
  print (times "=" 60);;
  return_ true.

(** Lines 44-147, up to the function's exit. *)
Definition test_connection_body : T bool :=
  print (times "=" 60);;
  print "S3 Connectivity Test";;
  print (times "=" 60);;
  print ("Timestamp: " +:+ now_49);;
  print ("Target Bucket: " +:+ BUCKET_NAME conf);;
  print ("Region: " +:+ AWS_REGION conf);;
  (if truthy (S3_ENDPOINT_URL conf) then
     print ("Endpoint URL: " +:+ default "" (S3_ENDPOINT_URL conf))
   else mret tt);;
  print (times "-" 60);;
  if negb (truthy (AWS_ACCESS_KEY_ID conf))
     || negb (truthy (AWS_SECRET_ACCESS_KEY conf)) then
    print "❌ ERROR: AWS credentials not set!";;
    print "   Please set AWS_ACCESS_KEY_ID and AWS_SECRET_ACCESS_KEY";;
    return_ false
  else
    print "✓ Credentials found in environment";;
    try_
      (s3 ← get_s3_client;
       run_tests s3)
      (λ e,
         match e with
         | NoCredentialsError _ =>
             Some (print "❌ ERROR: No valid credentials found";;
                   return_ false)
         | ClientError _ _ =>
             Some (print ("❌ ERROR: " +:+ failure_str e);;
                   return_ false)
         | OtherError _ =>
             if is_Exception e then
               Some (print ("❌ UNEXPECTED ERROR: " +:+ failure_str e);;
                     print_exc e;;
                     return_ false)
             else None
         end).

(** The function as called: the value it returns, or the exception it
    lets through. *)
Definition test_connection (w : World) : (bool + Failure) * World :=
  match test_connection_body w with
  | (inl b, w') => (inl b, w')
  | (inr (ReturnValue b), w') => (inl b, w')
  | (inr (Throw f), w') => (inr f, w')
  end.

(** Lines 150-153: the exit status of the script, or the exception that
    ends it. *)
Definition main (w : World) : (Z + Failure) * World :=
  match test_connection w with
  | (inl success, w') => (inl (if success then 0%Z else 1%Z), w')
  | (inr f, w') => (inr f, w')
  end.

(** *** The verdict, read off the answers of the service

    The three definitions below are not part of the script: they state,
    on the answers alone, when the script reports success. *)

Definition answered {A : Type} (r : Failure + A) : bool :=
  match r with
  | inr _ => true
  | inl _ => false
  end.

(** The bucket is there, or it was missing (code 404) and could be
    created. *)
Definition bucket_ready (s3 : Client) : bool :=
  match head_bucket s3 (BUCKET_NAME conf) with
  | inr _ => true
  | inl (ClientError error_code _) =>
      String.eqb error_code "404" &&
      answered (create_bucket s3 (BUCKET_NAME conf)
                  (if String.eqb (AWS_REGION conf) "us-east-1" then None
                   else Some (AWS_REGION conf)))
  | inl _ => false
  end.

(** The write test raised nothing but a [ClientError]. *)
Definition write_tolerated (s3 : Client) : bool :=
  let test_key := "_test/connectivity_test_" +:+ now_113 +:+ ".txt" in
  let test_content := "Connectivity test at " +:+ now_114 in
  match put_object s3 (BUCKET_NAME conf) test_key test_content "text/plain"
  with
  | inr _ =>
      match delete_object s3 (BUCKET_NAME conf) test_key with
      | inr _ | inl (ClientError _ _) => true
      | inl _ => false
      end
  | inl (ClientError _ _) => true
  | inl _ => false
  end.

Definition passes : bool :=
  truthy (AWS_ACCESS_KEY_ID conf) && truthy (AWS_SECRET_ACCESS_KEY conf) &&
  match boto3_client config with
  | inr s3 =>
      answered (list_buckets s3) && bucket_ready s3 &&
      answered (list_objects_v2 s3 (BUCKET_NAME conf) 10) &&
      write_tolerated s3
  | inl _ => false
  end.

(** *** The script without its printing

    How each part ends and which calls it makes, as functions of the
    answers of the service. *)

Definition location : option string :=
  if String.eqb (AWS_REGION conf) "us-east-1" then None
  else Some (AWS_REGION conf).

Definition check_exit (s3 : Client) : unit + Exit :=
  match head_bucket s3 (BUCKET_NAME conf) with
  | inr _ => inl tt
  | inl (ClientError error_code _) =>
      if String.eqb error_code "404" then
        match create_bucket s3 (BUCKET_NAME conf) location with
        | inr _ => inl tt
        | inl f => if is_Exception f then inr (ReturnValue false)
                   else inr (Throw f)
        end
      else inr (ReturnValue false)
  | inl f => inr (Throw f)
  end.

Definition check_calls (s3 : Client) : list Call :=
  CHeadBucket (BUCKET_NAME conf) ::
  match head_bucket s3 (BUCKET_NAME conf) with
  | inl (ClientError error_code _) =>
      if String.eqb error_code "404"
      then [CCreateBucket (BUCKET_NAME conf) location] else []
  | _ => []
  end.

Definition test_key : string :=
  "_test/connectivity_test_" +:+ now_113 +:+ ".txt".

Definition test_content : string := "Connectivity test at " +:+ now_114.

Definition write_exit (s3 : Client) : unit + Exit :=
  match put_object s3 (BUCKET_NAME conf) test_key test_content "text/plain"
  with
  | inr _ =>
      match delete_object s3 (BUCKET_NAME conf) test_key with
      | inr _ | inl (ClientError _ _) => inl tt
      | inl f => inr (Throw f)
      end
  | inl (ClientError _ _) => inl tt
  | inl f => inr (Throw f)
  end.

Definition write_calls (s3 : Client) : list Call :=
  CPutObject (BUCKET_NAME conf) test_key test_content "text/plain" ::
  match put_object s3 (BUCKET_NAME conf) test_key test_content "text/plain"
  with
  | inr _ => [CDeleteObject (BUCKET_NAME conf) test_key]
  | inl _ => []
  end.

(** What the outermost [try] makes of an exception. *)
Definition caught (f : Failure) : bool + Failure :=
  if is_Exception f then inl false else inr f.

(** The four tests. *)
Definition tests_exit (s3 : Client) : bool + Exit :=
  match list_buckets s3 with
  | inl f => inr (Throw f)
  | inr _ =>
      match check_exit s3 with
      | inr x => inr x
      | inl _ =>
          match list_objects_v2 s3 (BUCKET_NAME conf) 10 with
          | inl f => inr (Throw f)
          | inr _ =>
              match write_exit s3 with
              | inr x => inr x
              | inl _ => inr (ReturnValue true)
              end
          end
      end
  end.

Definition tests_calls (s3 : Client) : list Call :=
  CListBuckets ::
  match list_buckets s3 with
  | inl _ => []
  | inr _ =>
      check_calls s3 ++
      match check_exit s3 with
      | inl _ =>
          CListObjects (BUCKET_NAME conf) 10 ::
          match list_objects_v2 s3 (BUCKET_NAME conf) 10 with
          | inl _ => []
          | inr _ => write_calls s3
          end
      | inr _ => []
      end
  end.

(** What [test_connection] returns or lets through. *)
Definition verdict : bool + Failure :=
  if negb (truthy (AWS_ACCESS_KEY_ID conf))
     || negb (truthy (AWS_SECRET_ACCESS_KEY conf)) then inl false
  else
    match boto3_client config with
    | inl f => caught f
    | inr s3 =>
        match tests_exit s3 with
        | inl b | inr (ReturnValue b) => inl b
        | inr (Throw f) => caught f
        end
    end.

(** The calls [test_connection] makes. *)
Definition trace : list Call :=
  if negb (truthy (AWS_ACCESS_KEY_ID conf))
     || negb (truthy (AWS_SECRET_ACCESS_KEY conf)) then []
  else
    CClient config ::
    match boto3_client config with
    | inl _ => []
    | inr s3 => tests_calls s3
    end.

End Script.

(** *** A service to run examples against *)

Definition demo_settings : Settings :=
  settings {[ "AWS_ACCESS_KEY_ID" := "id";
              "AWS_SECRET_ACCESS_KEY" := "secret";
              "AWS_REGION" := "eu-west-1" ]}.

(** A client whose [head_bucket] and [put_object] answer as given and
    whose other operations succeed. *)
Definition demo_client (head put : Failure + unit) : Client :=
  {| list_buckets := inr None;
     head_bucket := λ _, head;
     create_bucket := λ _ _, inr tt;
     list_objects_v2 := λ _ _, inr {| KeyCount := None; Contents := None |};
     put_object := λ _ _ _ _, put;
     delete_object := λ _ _, inr tt |}.

End s3_test.

(** * Properties *)

(** ** Strings *)

Lemma append_cons (c : ascii) (s t : string) :
  String c s +:+ t = String c (s +:+ t).
Proof. reflexivity. Qed.

Lemma append_nil_l (s : string) : "" +:+ s = s.
Proof. reflexivity. Qed.

Lemma append_nil_r (s : string) : s +:+ "" = s.
Proof. induction s as [|c s IH]; [reflexivity|]. by rewrite append_cons, IH. Qed.

Lemma append_assoc (s t u : string) : (s +:+ t) +:+ u = s +:+ (t +:+ u).
Proof.
  induction s as [|c s IH]; [reflexivity|]. by rewrite !append_cons, IH.
Qed.

Lemma rev_app_rev_app (s1 s2 s3 : string) :
  String.rev_app (String.rev_app s1 s2) s3 = String.rev_app s2 (s1 +:+ s3).
Proof.
  revert s2 s3. induction s1 as [|a s1 IH]; intros s2 s3; [reflexivity|].
  simpl. by rewrite IH.
Qed.

Lemma rev_involutive (s : string) : String.rev (String.rev s) = s.
Proof. unfold String.rev. by rewrite rev_app_rev_app, append_nil_r. Qed.

Lemma rev_app_append (s1 s2 : string) :
  String.rev_app s1 s2 = String.rev s1 +:+ s2.
Proof.
  unfold String.rev. revert s2.
  induction s1 as [|a s1 IH]; intros s2; [reflexivity|].
  simpl. rewrite (IH (String a s2)), (IH (String a "")).
  by rewrite append_assoc.
Qed.

Lemma rev_cons (a : ascii) (s : string) :
  String.rev (String a s) = String.rev s +:+ String a "".
Proof. unfold String.rev at 1. simpl. by rewrite rev_app_append. Qed.

Lemma string_strong_ind (P : string → Prop) :
  (∀ s, (∀ s', (String.length s' < String.length s)%nat → P s') → P s) →
  ∀ s, P s.
Proof.
  intros H.
  assert (∀ n s, (String.length s < n)%nat → P s) as Hn.
  { induction n as [|n IH]; intros s Hs; [lia|].
    apply H. intros s' Hs'. apply IH. lia. }
  intros s. apply (Hn (S (String.length s))). lia.
Qed.

(** ** Whitespace *)

Lemma space1_not_space2 (a b : ascii) :
  space1 a = true → space2 a b = false.
Proof.
  unfold space1, space2. intros H.
  destruct (Nat.eqb_spec (nat_of_ascii a) 194) as [E|]; [|reflexivity].
  rewrite E in H. discriminate.
Qed.

Lemma space1_not_space3 (a b c : ascii) :
  space1 a = true → space3 a b c = false.
Proof.
  unfold space1, space3. intros H.
  destruct (Nat.eqb_spec (nat_of_ascii a) 225) as [E|];
    [rewrite E in H; discriminate|].
  destruct (Nat.eqb_spec (nat_of_ascii a) 226) as [E|];
    [rewrite E in H; discriminate|].
  destruct (Nat.eqb_spec (nat_of_ascii a) 227) as [E|];
    [rewrite E in H; discriminate|].
  reflexivity.
Qed.

Lemma space2_not_space3 (a b c : ascii) :
  space2 a b = true → space3 a b c = false.
Proof.
  unfold space2, space3. intros H.
  destruct (Nat.eqb_spec (nat_of_ascii a) 194) as [E|]; [|discriminate].
  rewrite E. reflexivity.
Qed.

Lemma space2_not_space1 (a b : ascii) :
  space2 a b = true → space1 a = false.
Proof.
  intros H. destruct (space1 a) eqn:E; [|reflexivity].
  by rewrite (space1_not_space2 a b E) in H.
Qed.

Lemma space3_not_space1 (a b c : ascii) :
  space3 a b c = true → space1 a = false.
Proof.
  intros H. destruct (space1 a) eqn:E; [|reflexivity].
  by rewrite (space1_not_space3 a b c E) in H.
Qed.

Lemma space3_not_space2 (a b c : ascii) :
  space3 a b c = true → space2 a b = false.
Proof.
  intros H. destruct (space2 a b) eqn:E; [|reflexivity].
  by rewrite (space2_not_space3 a b c E) in H.
Qed.

Lemma blank_1 (a : ascii) (s : string) :
  space1 a = true → blank (String a s) = blank s.
Proof.
  intros H. cbn [blank]. rewrite H. cbn [andb].
  destruct (blank s); [reflexivity|]. cbn [orb].
  destruct s as [|b [|c s]]; try reflexivity.
  - by rewrite (space1_not_space2 a b H).
  - by rewrite (space1_not_space2 a b H), (space1_not_space3 a b c H).
Qed.

Lemma blank_2 (a b : ascii) (s : string) :
  space2 a b = true → blank (String a (String b s)) = blank s.
Proof.
  intros H. cbn [blank]. rewrite H, (space2_not_space1 a b H). cbn [andb orb].
  destruct (blank s); [reflexivity|]. cbn [orb].
  destruct s as [|c s]; [reflexivity|].
  by rewrite (space2_not_space3 a b c H).
Qed.

Lemma blank_3 (a b c : ascii) (s : string) :
  space3 a b c = true → blank (String a (String b (String c s))) = blank s.
Proof.
  intros H. cbn [blank].
  by rewrite H, (space3_not_space1 a b c H), (space3_not_space2 a b c H).
Qed.

(** A string that does not start with a whitespace character. *)
Lemma blank_other (a : ascii) (s : string) :
  space1 a = false →
  match s with
  | String b s2 =>
      space2 a b = false ∧
      match s2 with
      | String c _ => space3 a b c = false
      | EmptyString => True
      end
  | EmptyString => True
  end →
  blank (String a s) = false.
Proof.
  intros H1 H. cbn [blank]. rewrite H1. cbn [andb orb].
  destruct s as [|b [|c s]]; [reflexivity| |].
  - destruct H as [-> _]. reflexivity.
  - destruct H as [-> ->]. reflexivity.
Qed.

Lemma lstrip_truthy (s : string) : str_truthy (lstrip s) = negb (blank s).
Proof.
  induction s as [s IH] using string_strong_ind.
  destruct s as [|a s1]; [reflexivity|].
  cbn [lstrip]. destruct (space1 a) eqn:H1.
  { rewrite (blank_1 _ _ H1). apply IH. simpl. lia. }
  destruct s1 as [|b s2]; [by rewrite blank_other|].
  destruct (space2 a b) eqn:H2.
  { rewrite (blank_2 _ _ _ H2). apply IH. simpl. lia. }
  destruct s2 as [|c s3]; [by rewrite blank_other|].
  destruct (space3 a b c) eqn:H3.
  { rewrite (blank_3 _ _ _ _ H3). apply IH. simpl. lia. }
  by rewrite blank_other.
Qed.

Lemma blank_lstrip (s : string) : blank (lstrip s) = blank s.
Proof.
  induction s as [s IH] using string_strong_ind.
  destruct s as [|a s1]; [reflexivity|].
  cbn [lstrip]. destruct (space1 a) eqn:H1.
  { rewrite (blank_1 _ _ H1). apply IH. simpl. lia. }
  destruct s1 as [|b s2]; [reflexivity|].
  destruct (space2 a b) eqn:H2.
  { rewrite (blank_2 _ _ _ H2). apply IH. simpl. lia. }
  destruct s2 as [|c s3]; [reflexivity|].
  destruct (space3 a b c) eqn:H3; [|reflexivity].
  rewrite (blank_3 _ _ _ _ H3). apply IH. simpl. lia.
Qed.

Lemma blank_app (s t : string) :
  blank s = true → blank t = true → blank (s +:+ t) = true.
Proof.
  intros Hs Ht. revert Hs.
  induction s as [s IH] using string_strong_ind.
  destruct s as [|a s1]; [done|].
  destruct (space1 a) eqn:H1.
  { rewrite append_cons, !(blank_1 _ _ H1). apply IH. simpl. lia. }
  destruct s1 as [|b s2]; [by rewrite blank_other|].
  destruct (space2 a b) eqn:H2.
  { rewrite !append_cons, !(blank_2 _ _ _ H2). apply IH. simpl. lia. }
  destruct s2 as [|c s3]; [by rewrite blank_other|].
  destruct (space3 a b c) eqn:H3; [|by rewrite blank_other].
  rewrite !append_cons, !(blank_3 _ _ _ _ H3). apply IH. simpl. lia.
Qed.

Lemma lstrip_rev_blank (s : string) :
  lstrip_rev s = "" → blank (String.rev s) = true.
Proof.
  induction s as [s IH] using string_strong_ind.
  destruct s as [|a s1]; [reflexivity|].
  cbn [lstrip_rev]. destruct (space1 a) eqn:H1.
  { intros H. rewrite rev_cons. apply blank_app; [apply IH; simpl; [lia|done]|].
    by rewrite (blank_1 _ _ H1). }
  destruct s1 as [|b s2]; [discriminate|].
  destruct (space2 b a) eqn:H2.
  { intros H. rewrite !rev_cons, append_assoc.
    apply blank_app; [apply IH; simpl; [lia|done]|].
    rewrite !append_cons, append_nil_l. by rewrite (blank_2 _ _ _ H2). }
  destruct s2 as [|c s3]; [discriminate|].
  destruct (space3 c b a) eqn:H3; [|discriminate].
  intros H. rewrite !rev_cons, !append_assoc.
  apply blank_app; [apply IH; simpl; [lia|done]|].
  rewrite !append_cons, !append_nil_l. by rewrite (blank_3 _ _ _ _ H3).
Qed.

(** [strip] leaves nothing exactly of the strings made of whitespace. *)
Lemma strip_truthy (s : string) : str_truthy (strip s) = negb (blank s).
Proof.
  destruct (blank s) eqn:Hb; simpl.
  - pose proof (lstrip_truthy s) as H. rewrite Hb in H. simpl in H.
    unfold strip. destruct (lstrip s); [reflexivity | discriminate].
  - destruct (str_truthy (strip s)) eqn:Ht; [reflexivity|].
    assert (strip s = "") as He by (by destruct (strip s)).
    unfold strip, rstrip in He.
    assert (lstrip_rev (String.rev (lstrip s)) = "") as Hl.
    { by rewrite <-(rev_involutive (lstrip_rev _)), He. }
    apply lstrip_rev_blank in Hl.
    rewrite rev_involutive, blank_lstrip in Hl. congruence.
Qed.

(** ** The examples of the specification *)

Example example_success :
  (execute_code_with_timeout py_compile "print('hi'); result = 1+1" 10
     boot).1
  = Returned {| success := true; stdout := "hi" +:+ nl; stderr := "";
                result := VInt 2; error := None;
                execution_time := seconds 0 |}.
Proof. vm_compute. reflexivity. Qed.

Example example_syntax_error :
  (execute_code_with_timeout py_compile "x =" 10 boot).1
  = Returned {| success := false; stdout := ""; stderr := "";
                result := VNone;
                error := Some "Syntax error: invalid syntax (<string>, line 1)";
                execution_time := seconds 0 |}.
Proof. vm_compute. reflexivity. Qed.

Example example_timeout :
  (execute_code_with_timeout py_compile "while True: pass" 1 boot).1
  = Returned {| success := false; stdout := ""; stderr := "";
                result := VNone;
                error := Some "Execution timed out after 1 seconds";
                execution_time := seconds 1000 |}.
Proof. vm_compute. reflexivity. Qed.

Example example_runtime_error :
  (execute_code_with_timeout py_compile "raise ValueError('boom')" 10 boot).1
  = Returned {| success := false; stdout := ""; stderr := "";
                result := VNone;
                error := Some ("ValueError: boom" +:+ nl +:+
                               "Traceback (most recent call last):" +:+ nl
                               +:+ "ValueError: boom" +:+ nl);
                execution_time := seconds 0 |}.
Proof. vm_compute. reflexivity. Qed.

Example example_clamp :
  effective_timeout 3600 {| code := "x = 5"; timeout := Some 999999%Z |}
  = 3600%Z.
Proof. reflexivity. Qed.

Example example_blank_code :
  (execute_python_code 3600 py_compile
     {| code := "  " +:+ nl; timeout := None |} boot).1
  = HTTPException 400 "No code provided".
Proof. vm_compute. reflexivity. Qed.

(** A worker that ends exactly at the deadline is awaited with success. *)
Example example_tie :
  (execute_code_with_timeout py_compile
     "import time; time.sleep(1); print('A')" 1 boot).1
  = Returned {| success := true; stdout := "A" +:+ nl; stderr := "";
                result := VNone; error := None;
                execution_time := seconds 1000 |}.
Proof. vm_compute. reflexivity. Qed.

(** Under a bound that is not positive the wait is given up at once, yet
    the worker has run by the time the handler resumes. *)
Example example_zero_bound :
  (execute_code_with_timeout py_compile "print('hi'); result = 1+1" 0
     boot).1
  = Returned {| success := false; stdout := "hi" +:+ nl; stderr := "";
                result := VNone;
                error := Some "Execution timed out after 0 seconds";
                execution_time := seconds 0 |}.
Proof. vm_compute. reflexivity. Qed.

(** Code that closes its capture buffer gets no outcome at all. *)
Example example_closed_buffer :
  (execute_code_with_timeout py_compile "import sys; sys.stdout.close()" 10
     boot).1
  = Propagated closed_file.
Proof. vm_compute. reflexivity. Qed.

(** ** The handler, piece by piece *)

Lemma isinstance_syntax_not_timeout (e : PyExc) :
  isinstance e SyntaxError = true → isinstance e TimeoutError = false.
Proof.
  unfold isinstance. destruct e as [c s tr]; simpl.
  induction c as [| | | | | | | | | | | |name base IH];
    try (vm_compute; congruence).
  rewrite !bool_decide_eq_true, !bool_decide_eq_false in *.
  simpl. rewrite !elem_of_cons.
  intros [H|H]; [discriminate|]. intros [H'|H']; [discriminate|].
  by apply IH.
Qed.


Lemma except_clauses_timeout (timeout : Z) :
  except_clauses timeout timeout_exc
  = Some ("Execution timed out after " +:+ str_int timeout +:+ " seconds").
Proof. reflexivity. Qed.

Lemma build_spec (start_time : N) (co ce : loc) (succ : bool) (res : PyVal)
    (msg : option string) (σ : Proc) :
  build start_time co ce succ res msg σ
  = (match getvalue co σ with
     | inr e => Propagated e
     | inl out =>
         match getvalue ce σ with
         | inr e => Propagated e
         | inl err =>
             Returned {| success := succ; stdout := out; stderr := err;
                         result := res; error := msg;
                         execution_time := seconds (clock σ - start_time) |}
         end
     end, σ).
Proof.
  unfold build. cbv [mbind M_bind mret M_ret time_time gets].
  destruct (getvalue co σ); [|reflexivity].
  by destruct (getvalue ce σ).
Qed.



Lemma handle_spec (timeout : Z) (start_time : N) (co ce : loc) (e : PyExc)
    (σ : Proc) :
  handle timeout start_time co ce e σ
  = (match except_clauses timeout e with
     | Some msg => (build start_time co ce false VNone (Some msg) σ).1
     | None => Propagated e
     end, σ).
Proof.
  unfold handle. destruct (except_clauses timeout e); [|reflexivity].
  by rewrite build_spec.
Qed.



(** The resumed handler, in terms of what it reads from the process. *)
Lemma resume_handler_spec (fr : Frame) (w : Wait) (σ : Proc) :
  resume_handler fr w σ
  = (match w with
     | Done =>
         (build (fr_start_time fr) (fr_stdout_capture fr)
            (fr_stderr_capture fr) true
            (default VNone (dict_get (fr_exec_globals fr) "result" σ))
            None σ).1
     | Failed e =>
         (handle (fr_timeout fr) (fr_start_time fr) (fr_stdout_capture fr)
            (fr_stderr_capture fr) e σ).1
     | TimedOut =>
         (handle (fr_timeout fr) (fr_start_time fr) (fr_stdout_capture fr)
            (fr_stderr_capture fr) timeout_exc σ).1
     end, restored fr σ).
Proof.
  unfold resume_handler.
  cbv [mbind M_bind mret M_ret restore modify gets].
  destruct w as [|e|]; rewrite ?handle_spec, ?build_spec; cbn [fst];
    try destruct (except_clauses _ _); rewrite ?build_spec; reflexivity.
Qed.


(** The resumed handler when both capture buffers are open. *)
Lemma resume_handler_open (fr : Frame) (w : Wait) (σ : Proc)
    (out err : string) :
  getvalue (fr_stdout_capture fr) σ = inl out →
  getvalue (fr_stderr_capture fr) σ = inl err →
  resume_handler fr w σ
  = (match
       match w with
       | Done =>
           Some (true,
                 default VNone (dict_get (fr_exec_globals fr) "result" σ),
                 None)
       | Failed e =>
           match except_clauses (fr_timeout fr) e with
           | Some msg => Some (false, VNone, Some msg)
           | None => None
           end
       | TimedOut =>
           Some (false, VNone,
                 Some ("Execution timed out after "
                       +:+ str_int (fr_timeout fr) +:+ " seconds"))
       end
     with
     | Some (succ, res, msg) =>
         Returned {| success := succ; stdout := out; stderr := err;
                     result := res; error := msg;
                     execution_time :=
                       seconds (clock σ - fr_start_time fr) |}
     | None =>
         match w with
         | Failed e => Propagated e
         | _ => Propagated timeout_exc
         end
     end, restored fr σ).
Proof.
  intros Ho He. rewrite resume_handler_spec.
  destruct w as [|e|]; rewrite ?handle_spec, ?except_clauses_timeout;
    try destruct (except_clauses _ e); rewrite ?build_spec, ?Ho, ?He;
    reflexivity.
Qed.

Lemma enter_handler_compiled (compile : string → Code + PyExc)
    (source : string) (timeout : Z) (σ : Proc) (c : Code) :
  compile source = inl c →
  enter_handler compile source timeout σ
  = (inl (frame_at c timeout σ), dispatched c σ).
Proof.
  intros Hc. unfold enter_handler, frame_at, dispatched, with_locals.
  cbv [mbind M_bind mret M_ret time_time StringIO new_dict gets modify alloc
       redirect].
  rewrite Hc. unfold log, set_chan, set_heap. simpl.
  rewrite !length_app. simpl.
  rewrite !Nat.add_1_r, <-!app_assoc. reflexivity.
Qed.

Lemma enter_handler_failed (compile : string → Code + PyExc)
    (source : string) (timeout : Z) (σ : Proc) (e : PyExc) :
  compile source = inr e →
  enter_handler compile source timeout σ
  = (inr (handle timeout (clock σ) (length (heap σ)) (S (length (heap σ))) e
            (with_locals σ)).1, with_locals σ).
Proof.
  intros Hc. unfold enter_handler, with_locals.
  cbv [mbind M_bind mret M_ret time_time StringIO new_dict gets modify alloc].
  rewrite Hc. rewrite !handle_spec. unfold set_heap. simpl.
  rewrite !length_app. simpl.
  rewrite !Nat.add_1_r, <-!app_assoc. reflexivity.
Qed.

(** A frame is what [frame_at] says, and the process at the suspension
    what [dispatched] says. *)
Lemma enter_handler_inl (compile : string → Code + PyExc) (source : string)
    (timeout : Z) (σ σ1 : Proc) (fr : Frame) :
  enter_handler compile source timeout σ = (inl fr, σ1) →
  compile source = inl (fr_compiled_code fr) ∧
  fr = frame_at (fr_compiled_code fr) timeout σ ∧
  σ1 = dispatched (fr_compiled_code fr) σ.
Proof.
  intros He. destruct (compile source) as [c|e] eqn:Hc.
  - rewrite (enter_handler_compiled _ _ _ _ _ Hc) in He.
    by injection He as <- <-.
  - by rewrite (enter_handler_failed _ _ _ _ _ Hc) in He.
Qed.

Lemma with_locals_lookup (σ : Proc) :
  heap (with_locals σ) !! length (heap σ) = Some (OStream "") ∧
  heap (with_locals σ) !! S (length (heap σ)) = Some (OStream "") ∧
  heap (with_locals σ) !! S (S (length (heap σ)))
  = Some (ODict (fresh_globals (builtins σ))).
Proof.
  simpl. split_and!.
  - by rewrite (list_lookup_middle (heap σ) _ _ (length (heap σ))).
  - rewrite lookup_app_r by lia.
    by replace (S (length (heap σ)) - length (heap σ))%nat with 1%nat by lia.
  - rewrite lookup_app_r by lia.
    by replace (S (S (length (heap σ))) - length (heap σ))%nat
         with 2%nat by lia.
Qed.

(** The buffers a call has just created are open and empty. *)
Lemma with_locals_getvalue (σ : Proc) :
  getvalue (length (heap σ)) (with_locals σ) = inl "" ∧
  getvalue (S (length (heap σ))) (with_locals σ) = inl "".
Proof.
  destruct (with_locals_lookup σ) as (H1 & H2 & _).
  unfold getvalue. by rewrite H1, H2.
Qed.

Lemma dispatched_getvalue (c : Code) (σ : Proc) :
  getvalue (length (heap σ)) (dispatched c σ) = inl "" ∧
  getvalue (S (length (heap σ))) (dispatched c σ) = inl "".
Proof. exact (with_locals_getvalue σ). Qed.




Lemma wait_for_spec (fr : Frame) (σ : Proc) :
  ∃ w t done σ2,
    run_worker (fr_exec_globals fr) (1000 * fr_timeout fr) 0 []
      (body (fr_compiled_code fr)) (ending (fr_compiled_code fr)) σ
    = (w, t, done, σ2) ∧
    wait_for fr σ = (w, set_clock (clock σ2 + t) σ2).
Proof.
  unfold wait_for.
  destruct (run_worker _ _ _ _ _ _ σ) as [[[w t] done] σ2].
  by exists w, t, done, σ2.
Qed.

(** The endpoint hands the code to the engine unless it is blank. *)
Lemma execute_python_code_runs (PYTHON_EXECUTE_TIMEOUT : Z)
    (compile : string → Code + PyExc) (request : CodeExecutionRequest)
    (σ : Proc) :
  blank (code request) = false →
  execute_python_code PYTHON_EXECUTE_TIMEOUT compile request σ
  = passed_on
      (execute_code_with_timeout compile (code request)
         (effective_timeout PYTHON_EXECUTE_TIMEOUT request) σ).
Proof.
  intros Hb. unfold execute_python_code, passed_on.
  rewrite strip_truthy, Hb. cbn [negb].
  cbv [mbind M_bind mret M_ret].
  by destruct (execute_code_with_timeout _ _ _ σ).
Qed.

(** ** The timeout arithmetic *)

(** C3: the engine is run with the clamped bound.  For code that is not
    blank, a request with a positive timeout [n] has its code run by
    [execute_code_with_timeout] under the bound
    [min(n, PYTHON_EXECUTE_TIMEOUT)], a request without a timeout under
    [PYTHON_EXECUTE_TIMEOUT]; and whatever the request, the bound the
    engine is run with is not above [PYTHON_EXECUTE_TIMEOUT]. *)
Theorem effective_timeout_is_clamped (PYTHON_EXECUTE_TIMEOUT : Z)
    (compile : string → Code + PyExc) (request : CodeExecutionRequest)
    (σ : Proc) :
  blank (code request) = false →
  (∀ n, timeout request = Some n → (0 < n)%Z →
        execute_python_code PYTHON_EXECUTE_TIMEOUT compile request σ
        = passed_on
            (execute_code_with_timeout compile (code request)
               (Z.min n PYTHON_EXECUTE_TIMEOUT) σ)) ∧
  (timeout request = None →
        execute_python_code PYTHON_EXECUTE_TIMEOUT compile request σ
        = passed_on
            (execute_code_with_timeout compile (code request)
               PYTHON_EXECUTE_TIMEOUT σ)) ∧
  (∃ bound,
     (bound ≤ PYTHON_EXECUTE_TIMEOUT)%Z ∧
     execute_python_code PYTHON_EXECUTE_TIMEOUT compile request σ
     = passed_on
         (execute_code_with_timeout compile (code request) bound σ)).
Proof.
  intros Hb. rewrite (execute_python_code_runs _ _ _ _ Hb).
  unfold effective_timeout. split_and!.
  - intros n -> Hn. simpl. destruct (Z.eqb_spec n 0); [lia | reflexivity].
  - intros ->. simpl. by rewrite Z.min_id.
  - eexists. split; [|reflexivity]. lia.
Qed.

Lemma effective_timeout_is_clamped_witness :
  execute_python_code 3600 py_compile
    {| code := "x = 5"; timeout := Some 999999%Z |} boot
  = passed_on (execute_code_with_timeout py_compile "x = 5" 3600 boot).
Proof.
  destruct (effective_timeout_is_clamped 3600 py_compile
              {| code := "x = 5"; timeout := Some 999999%Z |} boot)
    as [H _]; [reflexivity|].
  rewrite (H 999999%Z); [reflexivity | reflexivity | lia].
Defined.

(** C10: a request with [timeout = 0] is not run under a zero-second
    bound.  Its code, unless blank, is run by [execute_code_with_timeout]
    under the bound [PYTHON_EXECUTE_TIMEOUT], and the request is answered
    exactly as a request without a timeout. *)
Theorem zero_timeout_is_taken_as_absent (PYTHON_EXECUTE_TIMEOUT : Z)
    (compile : string → Code + PyExc) (source : string) (σ : Proc) :
  blank source = false →
  execute_python_code PYTHON_EXECUTE_TIMEOUT compile
    {| code := source; timeout := Some 0%Z |} σ
  = passed_on
      (execute_code_with_timeout compile source PYTHON_EXECUTE_TIMEOUT σ) ∧
  execute_python_code PYTHON_EXECUTE_TIMEOUT compile
    {| code := source; timeout := Some 0%Z |} σ
  = execute_python_code PYTHON_EXECUTE_TIMEOUT compile
      {| code := source; timeout := None |} σ.
Proof.
  intros Hb.
  rewrite (execute_python_code_runs _ _ {| code := source |} _ Hb).
  rewrite (execute_python_code_runs _ _ {| code := source |} _ Hb).
  unfold effective_timeout. simpl. by rewrite Z.min_id.
Qed.

Lemma zero_timeout_is_taken_as_absent_witness :
  (execute_python_code 3600 py_compile
     {| code := "print('hi'); result = 1+1"; timeout := Some 0%Z |} boot).1
  = CodeExecutionResponse
      {| success := true; stdout := "hi" +:+ nl; stderr := "";
         result := VInt 2; error := None; execution_time := seconds 0 |}.
Proof.
  destruct (zero_timeout_is_taken_as_absent 3600 py_compile
              "print('hi'); result = 1+1" boot) as [H _]; [reflexivity|].
  rewrite H. vm_compute. reflexivity.
Defined.

(** ** What a statement does to the heap *)

Lemma getvalue_readout (l : loc) (o : Obj) (σ : Proc) :
  heap σ !! l = Some o → getvalue l σ = readout o.
Proof. intros H. unfold getvalue. rewrite H. by destruct o. Qed.

Lemma getvalue_insert_ne (l l' : loc) (o : Obj) (σ : Proc) :
  l ≠ l' → getvalue l (set_heap (<[l' := o]> (heap σ)) σ) = getvalue l σ.
Proof. intros Hne. unfold getvalue. simpl. by rewrite list_lookup_insert_ne. Qed.

Lemma getvalue_insert_eq (l : loc) (o0 o : Obj) (σ : Proc) :
  heap σ !! l = Some o0 →
  getvalue l (set_heap (<[l := o]> (heap σ)) σ) = readout o.
Proof.
  intros H. apply getvalue_readout. simpl.
  rewrite list_lookup_insert_eq; [done|]. by eapply lookup_lt_Some.
Qed.

(** A statement changes at most one object of the heap, and nothing else
    of the process.  A print appends to the open stream its channel points
    at; any other statement keeps a stream a stream of the same text,
    unless it closes what a channel points at. *)
Lemma exec_instr_effect (g : loc) (i : Instr) (σ σ' : Proc)
    (r : option PyExc) :
  exec_instr g i σ = (r, σ') →
  σ' = σ ∧ (r = None → writes i = None) ∨
  r = None ∧
  ∃ l0 o0 o,
    σ' = set_heap (<[l0 := o]> (heap σ)) σ ∧
    heap σ !! l0 = Some o0 ∧
    match writes i with
    | Some (c, s) =>
        l0 = get_chan c σ ∧
        ∃ text, o0 = OStream text ∧ o = OStream (text +:+ s)
    | None =>
        readout o = readout o0 ∨ o = OClosed ∧ ∃ c, l0 = get_chan c σ
    end.
Proof.
  destruct i as [s|s|x v|x y|o a v|m|ms|c]; simpl;
    unfold stream_write, stream_close, dict_set;
    repeat case_match; intros ?; simplify_eq;
    try (left; split; [reflexivity|]; done);
    right; (split; [reflexivity|]); eexists _, _, _;
    (split; [reflexivity|]); (split; [eassumption|]); simpl; eauto.
Qed.

Lemma exec_instr_frame (g : loc) (i : Instr) (σ σ' : Proc)
    (r : option PyExc) :
  exec_instr g i σ = (r, σ') →
  length (heap σ') = length (heap σ) ∧ builtins σ' = builtins σ ∧
  sys_stdout σ' = sys_stdout σ ∧ sys_stderr σ' = sys_stderr σ.
Proof.
  intros H. apply exec_instr_effect in H
    as [[-> _]|(_ & l0 & o0 & o & -> & _ & _)]; [done|].
  simpl. by rewrite length_insert.
Qed.

(** A statement touches no stream but the two [sys.stdout] and
    [sys.stderr] point at. *)
Lemma exec_instr_quiet (g : loc) (i : Instr) (σ σ' : Proc)
    (r : option PyExc) (l : loc) :
  exec_instr g i σ = (r, σ') →
  l ≠ sys_stdout σ → l ≠ sys_stderr σ →
  getvalue l σ' = getvalue l σ.
Proof.
  intros H Ho He. apply exec_instr_effect in H
    as [[-> _]|(_ & l0 & o0 & o & -> & Hl0 & Hw)]; [done|].
  destruct (decide (l = l0)) as [->|Hne]; [|by apply getvalue_insert_ne].
  rewrite (getvalue_insert_eq _ _ _ _ Hl0), (getvalue_readout _ _ _ Hl0).
  destruct (writes i) as [[c s]|].
  - destruct Hw as [-> _]. by destruct c.
  - destruct Hw as [Hw|[_ [c ->]]]; [done|]. by destruct c.
Qed.



(** ** What the worker leaves in the capture buffers *)



Lemma ran_frame (g : loc) (prog : list Instr) (σ σ' : Proc) :
  ran g prog σ σ' →
  length (heap σ') = length (heap σ) ∧ builtins σ' = builtins σ ∧
  sys_stdout σ' = sys_stdout σ ∧ sys_stderr σ' = sys_stderr σ.
Proof.
  induction 1 as [σ|i prog σ σ1 σ2 Hi _ IH]; [done|].
  apply exec_instr_frame in Hi as (<- & <- & <- & <-). exact IH.
Qed.

Lemma ran_quiet (g : loc) (prog : list Instr) (σ σ' : Proc) (l : loc) :
  ran g prog σ σ' →
  l ≠ sys_stdout σ → l ≠ sys_stderr σ →
  getvalue l σ' = getvalue l σ.
Proof.
  induction 1 as [σ|i prog σ σ1 σ2 Hi _ IH]; [done|]. intros Ho He.
  pose proof (exec_instr_frame _ _ _ _ _ Hi) as (_ & _ & Ho1 & He1).
  rewrite IH by congruence. by eapply exec_instr_quiet.
Qed.



Lemma settle_inv (deadline : Z) (w w' : Wait) (t t' : N)
    (done done' : list Instr) (σ σ' : Proc) :
  settle deadline w t done σ = (w', t', done', σ') →
  done' = done ∧ σ' = σ ∧
  ((0 < deadline)%Z ∧ w' = w ∧ t' = t
   ∨ (deadline ≤ 0)%Z ∧ w' = TimedOut ∧ t' = Z.to_N deadline).
Proof.
  unfold settle. destruct (Z.ltb_spec 0 deadline); intros [= <- <- <- <-];
    split_and!; try done; [left|right]; by split_and!.
Qed.

(** The worker runs the statements in order, none raising but possibly
    the last; it is awaited with its own end only under a positive bound
    and if it ended by the deadline. *)
Lemma run_worker_inv (g : loc) (deadline : Z) (fin : Ending)
    (rest : list Instr) :
  ∀ (t : N) (done : list Instr) (σ : Proc) (w : Wait) (t' : N)
    (done' : list Instr) (σ' : Proc),
    run_worker g deadline t done rest fin σ = (w, t', done', σ') →
    ∃ new left σm,
      rest = new ++ left ∧ done' = done ++ new ∧ ran g new σ σm ∧
      (σ' = σm ∨
       ∃ i e, head left = Some i ∧ exec_instr g i σm = (Some e, σ')) ∧
      (w = Done → left = []) ∧
      (w ≠ TimedOut →
       (0 < deadline)%Z ∧ (Z.of_N t ≤ Z.of_N t')%Z
       ∧ (Z.of_N t' ≤ deadline)%Z) ∧
      ((deadline ≤ 0)%Z → w = TimedOut).
Proof.
  induction rest as [|i rest IH]; intros t done σ w t' done' σ'; simpl.
  - destruct (Z.ltb_spec (Z.max 0 deadline) (Z.of_N t)).
    { intros [= <- <- <- <-]. exists [], [], σ. rewrite !app_nil_r.
      split_and!; try done; [constructor | by left]. }
    destruct fin as [|e|].
    + intros Hs. apply settle_inv in Hs as (-> & -> & Hs).
      exists [], [], σ. rewrite !app_nil_r.
      split_and!; try done; [constructor | by left | |].
      * intros Hw. destruct Hs as [(? & -> & ->)|(_ & -> & _)]; [lia|done].
      * intros Hd. destruct Hs as [(? & _)|(_ & -> & _)]; [lia|done].
    + intros Hs. apply settle_inv in Hs as (-> & -> & Hs).
      exists [], [], σ. rewrite !app_nil_r.
      split_and!; try done; [constructor | by left | |].
      * intros Hw. destruct Hs as [(? & -> & ->)|(_ & -> & _)]; [lia|done].
      * intros Hd. destruct Hs as [(? & _)|(_ & -> & _)]; [lia|done].
    + intros [= <- <- <- <-]. exists [], [], σ. rewrite !app_nil_r.
      split_and!; try done; [constructor | by left].
  - destruct (Z.ltb_spec (Z.max 0 deadline) (Z.of_N t)).
    { intros [= <- <- <- <-]. exists [], (i :: rest), σ. rewrite !app_nil_r.
      split_and!; try done; [constructor | by left]. }
    destruct (exec_instr g i σ) as [[e|] σ1] eqn:Hi.
    + intros Hs. apply settle_inv in Hs as (-> & -> & Hs).
      exists [], (i :: rest), σ. rewrite !app_nil_r.
      split_and!; try done; [constructor | right; by exists i, e | | |].
      * intros ->. by destruct Hs as [(_ & ? & _)|(_ & ? & _)].
      * intros Hw. destruct Hs as [(? & -> & ->)|(_ & -> & _)]; [lia|done].
      * intros Hd. destruct Hs as [(? & _)|(_ & -> & _)]; [lia|done].
    + intros Hrun.
      destruct (IH _ _ _ _ _ _ _ Hrun)
        as (new & left & σm & -> & -> & Hran & Hend & Hdone & Htime & Hneg).
      exists (i :: new), left, σm. rewrite <-app_assoc.
      split_and!; try done; [by econstructor|].
      intros Hw. destruct (Htime Hw) as (? & ? & ?). lia.
Qed.


Lemma run_worker_frame (g : loc) (deadline : Z) (fin : Ending)
    (rest : list Instr) (t : N) (done : list Instr) (σ : Proc) (w : Wait)
    (t' : N) (done' : list Instr) (σ' : Proc) :
  run_worker g deadline t done rest fin σ = (w, t', done', σ') →
  length (heap σ') = length (heap σ) ∧ builtins σ' = builtins σ ∧
  sys_stdout σ' = sys_stdout σ ∧ sys_stderr σ' = sys_stderr σ.
Proof.
  intros H. apply run_worker_inv in H
    as (new & left & σm & _ & _ & Hran & Hend & _).
  apply ran_frame in Hran as (<- & <- & <- & <-).
  destruct Hend as [->|(i & e & _ & Hi)]; [done|].
  by eapply exec_instr_frame.
Qed.

Lemma run_worker_quiet (g : loc) (deadline : Z) (fin : Ending) (l : loc)
    (rest : list Instr) (t : N) (done : list Instr) (σ : Proc) (w : Wait)
    (t' : N) (done' : list Instr) (σ' : Proc) :
  run_worker g deadline t done rest fin σ = (w, t', done', σ') →
  l ≠ sys_stdout σ → l ≠ sys_stderr σ →
  getvalue l σ' = getvalue l σ.
Proof.
  intros H Ho He. apply run_worker_inv in H
    as (new & left & σm & _ & _ & Hran & Hend & _).
  pose proof (ran_frame _ _ _ _ Hran) as (_ & _ & Ho1 & He1).
  rewrite <-(ran_quiet _ _ _ _ l Hran Ho He).
  destruct Hend as [->|(i & e & _ & Hi)]; [done|].
  eapply exec_instr_quiet; [exact Hi|congruence|congruence].
Qed.




(** ** The engine *)




(** C2, as the code has it: when [compile] rejects the code with a
    [SyntaxError], the call returns [success = False], the error
    ["Syntax error: "] followed by the parser's message, empty [stdout]
    and [stderr] and no result.  When [compile] rejects it with another
    [Exception] (a [ValueError] for a null byte), the error is the class
    name, the message and the traceback instead.  Either way no time has
    passed and nothing was executed: the process differs from the one the
    call found only by the three objects the call created, with no
    redirection installed and no worker dispatched. *)
Theorem syntax_error_is_reported_without_running
    (compile : string → Code + PyExc) (source : string) (timeout : Z)
    (σ : Proc) (e : PyExc) :
  compile source = inr e →
  (isinstance e SyntaxError = true →
   execute_code_with_timeout compile source timeout σ
   = (Returned {| success := false;
                  stdout := "";
                  stderr := "";
                  result := VNone;
                  error := Some ("Syntax error: " +:+ exc_str e);
                  execution_time := seconds 0 |},
      with_locals σ)) ∧
  (isinstance e SyntaxError = false →
   isinstance e TimeoutError = false →
   isinstance e Exception = true →
   execute_code_with_timeout compile source timeout σ
   = (Returned {| success := false;
                  stdout := "";
                  stderr := "";
                  result := VNone;
                  error := Some (class_name (exc_class e) +:+ ": "
                                 +:+ exc_str e +:+ nl +:+ exc_trace e);
                  execution_time := seconds 0 |},
      with_locals σ)) ∧
  (execute_code_with_timeout compile source timeout σ).2 = with_locals σ ∧
  events (with_locals σ) = events σ ∧
  sys_stdout (with_locals σ) = sys_stdout σ ∧
  sys_stderr (with_locals σ) = sys_stderr σ.
Proof.
  intros Hc.
  assert (execute_code_with_timeout compile source timeout σ
          = (match except_clauses timeout e with
             | Some msg =>
                 Returned {| success := false; stdout := ""; stderr := "";
                             result := VNone; error := Some msg;
                             execution_time := seconds 0 |}
             | None => Propagated e
             end, with_locals σ)) as ->.
  { unfold execute_code_with_timeout. cbv [mbind M_bind mret M_ret].
    rewrite (enter_handler_failed _ _ _ _ _ Hc), handle_spec. cbn [fst].
    destruct (except_clauses timeout e); [|reflexivity].
    destruct (with_locals_getvalue σ) as (H1 & H2).
    rewrite build_spec, H1, H2. cbn [fst].
    replace (clock (with_locals σ) - clock σ)%N with 0%N
      by (simpl; lia).
    reflexivity. }
  unfold except_clauses. split_and!; try reflexivity.
  - intros He. by rewrite (isinstance_syntax_not_timeout _ He), He.
  - intros Hsyn Htmo Hexc. by rewrite Htmo, Hsyn, Hexc.
Qed.

Lemma syntax_error_is_reported_without_running_witness :
  (execute_code_with_timeout py_compile "x =" 10 boot).1
  = Returned {| success := false;
                stdout := "";
                stderr := "";
                result := VNone;
                error := Some "Syntax error: invalid syntax (<string>, line 1)";
                execution_time := seconds 0 |}.
Proof.
  edestruct (syntax_error_is_reported_without_running py_compile "x =" 10
               boot) as [H _].
  - vm_compute. reflexivity.
  - rewrite H; [reflexivity|]. vm_compute. reflexivity.
Defined.

(** C2 as stated fails on the code: not every code string that fails to
    compile is reported as a syntax error.  [compile] rejects a source
    with a null byte with a [ValueError]; the [except Exception] clause
    takes it, and the error is the class name, the message and the
    traceback, with no ["Syntax error:"] in front. *)
Lemma compile_failure_other_than_a_syntax_error :
  py_compile null_byte_source
  = inr (raises ValueError "source code string cannot contain null bytes") ∧
  (execute_code_with_timeout py_compile null_byte_source 10 boot).1
  = Returned {| success := false; stdout := ""; stderr := "";
                result := VNone;
                error :=
                  Some ("ValueError: source code string cannot contain "
                        +:+ "null bytes" +:+ nl +:+
                        "Traceback (most recent call last):" +:+ nl +:+
                        "ValueError: source code string cannot contain "
                        +:+ "null bytes" +:+ nl);
                execution_time := seconds 0 |} ∧
  (∀ o, (execute_code_with_timeout py_compile null_byte_source 10 boot).1
        = Returned o →
        ∃ msg, error o = Some msg ∧
               String.prefix "Syntax error:" msg = false).
Proof.
  split_and!.
  - vm_compute. reflexivity.
  - vm_compute. reflexivity.
  - intros o Ho. vm_compute in Ho. injection Ho as <-.
    eexists. split; [reflexivity|]. vm_compute. reflexivity.
Qed.







(** *** Requests in flight together *)




(** The worker is started by the dispatch: under a bound of zero the
    handler cannot time out before the statements due at once have run,
    and its answer carries what they printed. *)
Example example_worker_goes_first :
  response 1
    (run py_compile [Request 1 "print('hi'); result = 1+1" 0; Expire 1] idle)
  = None ∧
  response 1
    (run py_compile
       [Request 1 "print('hi'); result = 1+1" 0; Work 1; Work 1; Expire 1]
       idle)
  = Some (Returned {| success := false; stdout := "hi" +:+ nl;
                      stderr := ""; result := VNone;
                      error := Some "Execution timed out after 0 seconds";
                      execution_time := seconds 0 |}).
Proof. split; vm_compute; reflexivity. Qed.

(** A worker that ends exactly at the deadline is delivered, and the
    timeout is refused. *)
Example example_tie_in_flight :
  response 1
    (run py_compile
       [Request 1 "import time; time.sleep(1); print('A')" 1; Work 1;
        Tick 1000; Work 1; Expire 1] idle)
  = None ∧
  response 1
    (run py_compile
       [Request 1 "import time; time.sleep(1); print('A')" 1; Work 1;
        Tick 1000; Work 1; Deliver 1] idle)
  = Some (Returned {| success := true; stdout := "A" +:+ nl;
                      stderr := ""; result := VNone; error := None;
                      execution_time := seconds 1000 |}).
Proof. split; vm_compute; reflexivity. Qed.



(** ** Objects are never freed, and [__builtins__] is never rebound *)

(** A call leaves behind every object it found, plus the three it made. *)
Lemma after_frame (compile : string → Code + PyExc) (source : string)
    (timeout : Z) (σ : Proc) :
  length (heap (after compile source timeout σ)) = (length (heap σ) + 3)%nat ∧
  builtins (after compile source timeout σ) = builtins σ.
Proof.
  unfold after, execute_code_with_timeout. cbv [mbind M_bind mret M_ret].
  destruct (compile source) as [c|e] eqn:Hc.
  - rewrite (enter_handler_compiled _ _ _ _ _ Hc). unfold wait_for.
    destruct (run_worker _ _ _ _ _ _ _) as [[[w t] done] σ2] eqn:Hw.
    destruct (run_worker_frame _ _ _ _ _ _ _ _ _ _ _ Hw)
      as (Hlen & Hb & _ & _).
    rewrite resume_handler_spec.
    simpl in *. rewrite Hlen, Hb, length_app. done.
  - rewrite (enter_handler_failed _ _ _ _ _ Hc). simpl.
    by rewrite length_app.
Qed.

(** ** The scope of a run *)

(** C7 as stated fails on the code: a mutation one run makes is observable
    from the scope of the next.  In a process that has just started the
    name [leak] resolves to nothing in the scope of a run; after a run of
    [import builtins; builtins.leak = 42] it resolves to [42] in the scope
    of the next run, whose code can read it. *)
Lemma builtins_mutation_is_seen_by_the_next_run :
  scope_view py_compile "result = leak" 10 "leak" boot = None ∧
  scope_view py_compile "result = leak" 10 "leak"
    (after py_compile "import builtins; builtins.leak = 42" 10 boot)
  = Some (VInt 42) ∧
  (execute_code_with_timeout py_compile "result = leak" 10
     (after py_compile "import builtins; builtins.leak = 42" 10 boot)).1
  = Returned {| success := true; stdout := ""; stderr := "";
                result := VInt 42; error := None;
                execution_time := seconds 0 |}.
Proof. split_and!; vm_compute; reflexivity. Qed.

(** C7, as the code has it: the globals dict of a run is an object the call
    creates, absent from the process before the call, holding exactly
    [__builtins__] (a reference to the one builtins object of the process)
    and [__name__]; and it is another object than the globals dict of any
    earlier run, whose bindings it therefore does not hold. *)
Theorem every_run_gets_a_new_globals_dict (compile : string → Code + PyExc) :
  (∀ source timeout σ fr σ1,
     enter_handler compile source timeout σ = (inl fr, σ1) →
     heap σ !! fr_exec_globals fr = None ∧
     heap σ1 !! fr_exec_globals fr
     = Some (ODict {[ "__builtins__" := VRef (builtins σ);
                      "__name__" := VStr "__main__" ]})) ∧
  (∀ source1 timeout1 source2 timeout2 σ fr1 σ1 fr2 σ2,
     enter_handler compile source1 timeout1 σ = (inl fr1, σ1) →
     enter_handler compile source2 timeout2
       (after compile source1 timeout1 σ) = (inl fr2, σ2) →
     fr_exec_globals fr2 ≠ fr_exec_globals fr1 ∧
     heap σ2 !! fr_exec_globals fr2
     = Some (ODict {[ "__builtins__" := VRef (builtins σ);
                      "__name__" := VStr "__main__" ]})).
Proof.
  assert (∀ source timeout σ fr σ1,
            enter_handler compile source timeout σ = (inl fr, σ1) →
            fr_exec_globals fr = S (S (length (heap σ))) ∧
            heap σ1 !! fr_exec_globals fr
            = Some (ODict (fresh_globals (builtins σ)))) as Hnew.
  { intros source timeout σ fr σ1 He.
    destruct (compile source) as [c|e] eqn:Hc.
    - rewrite (enter_handler_compiled _ _ _ _ _ Hc) in He.
      injection He as <- <-. split; [reflexivity|].
      unfold dispatched, frame_at. cbn [heap fr_exec_globals].
      by destruct (with_locals_lookup σ) as (_ & _ & ->).
    - by rewrite (enter_handler_failed _ _ _ _ _ Hc) in He. }
  split.
  - intros source timeout σ fr σ1 He.
    destruct (Hnew _ _ _ _ _ He) as [Hg Hd]. split; [|exact Hd].
    rewrite Hg. apply lookup_ge_None. lia.
  - intros source1 timeout1 source2 timeout2 σ fr1 σ1 fr2 σ2 He1 He2.
    destruct (Hnew _ _ _ _ _ He1) as [Hg1 _].
    destruct (Hnew _ _ _ _ _ He2) as [Hg2 Hd2].
    destruct (after_frame compile source1 timeout1 σ) as [Hlen Hb].
    rewrite Hb in Hd2. split; [|exact Hd2]. lia.
Qed.

Lemma every_run_gets_a_new_globals_dict_witness :
  heap (enter_handler py_compile "result = x" 10
          (after py_compile "x = 5" 10 boot)).2 !! 10%nat
  = Some (ODict {[ "__builtins__" := VRef 0%nat;
                   "__name__" := VStr "__main__" ]}).
Proof.
  destruct (every_run_gets_a_new_globals_dict py_compile) as [_ H].
  edestruct (H "x = 5" 10%Z "result = x" 10%Z boot) as [_ Hd].
  - vm_compute. reflexivity.
  - vm_compute. reflexivity.
  - vm_compute in Hd |- *. exact Hd.
Defined.

(** ** Capture under concurrency *)

(** C8, evaluated on the code: with two requests in flight together, each
    printing its own marker, the first gets an empty [stdout] and the
    second gets both markers; and once both calls have returned,
    [sys.stdout] is left pointing at the first call's buffer instead of the
    stream it pointed at before. *)
Theorem concurrent_runs_share_one_redirection :
  response 1 (run py_compile two_printers idle)
  = Some (Returned {| success := true;
                      stdout := "";
                      stderr := "";
                      result := VNone;
                      error := None;
                      execution_time := seconds 1000 |}) ∧
  response 2 (run py_compile two_printers idle)
  = Some (Returned {| success := true;
                      stdout := "A" +:+ nl +:+ "B" +:+ nl;
                      stderr := "";
                      result := VNone;
                      error := None;
                      execution_time := seconds 1000 |}) ∧
  sys_stdout (proc idle) = 3%nat ∧
  sys_stdout (proc (run py_compile two_printers idle)) = 5%nat.
Proof. split_and!; vm_compute; reflexivity. Qed.

(** ** The result value *)




(** * Further properties *)

(** ** [s3_test.py] *)

Section S3Facts.

Import s3_test.

Lemma ends_eq {A : Type} (m : T A) (r r' : A + Exit) (cs cs' : list Call) :
  ends m r cs → r = r' → cs = cs' → ends m r' cs'.
Proof. by intros H <- <-. Qed.

Lemma ends_ret {A : Type} (a : A) : ends (mret a) (inl a) [].
Proof. intros w. simpl. by rewrite app_nil_r. Qed.

Lemma ends_print (s : string) : ends (print s) (inl tt) [].
Proof. intros w. simpl. by rewrite app_nil_r. Qed.

Lemma ends_print_exc (f : Failure) : ends (print_exc f) (inl tt) [].
Proof. intros w. simpl. by rewrite app_nil_r. Qed.

Lemma ends_return {A : Type} (b : bool) :
  ends (return_ b : T A) (inr (ReturnValue b)) [].
Proof. intros w. simpl. by rewrite app_nil_r. Qed.

Lemma ends_call_ok {A : Type} (c : Call) (a : A) :
  ends (call c (inr a)) (inl a) [c].
Proof. by intros w. Qed.

Lemma ends_call_fail {A : Type} (c : Call) (f : Failure) :
  ends (call c (inl f) : T A) (inr (Throw f)) [c].
Proof. by intros w. Qed.

Lemma ends_bind {A B : Type} (m : T A) (k : A → T B) (a : A) (r : B + Exit)
    (cs1 cs2 : list Call) :
  ends m (inl a) cs1 → ends (k a) r cs2 → ends (m ≫= k) r (cs1 ++ cs2).
Proof.
  intros Hm Hk w. destruct (Hm w) as [H1 H2].
  unfold mbind, T_bind. destruct (m w) as [x w1]. simpl in *. subst x.
  destruct (Hk w1) as [H3 H4]. split; [exact H3|].
  by rewrite H4, H2, app_assoc.
Qed.

Lemma ends_bind_exit {A B : Type} (m : T A) (k : A → T B) (x : Exit)
    (cs : list Call) :
  ends m (inr x) cs → ends (m ≫= k) (inr x) cs.
Proof.
  intros Hm w. destruct (Hm w) as [H1 H2].
  unfold mbind, T_bind. destruct (m w) as [y w1]. simpl in *. by subst y.
Qed.

Lemma ends_try_ok {A : Type} (body : T A) (h : Failure → option (T A))
    (a : A) (cs : list Call) :
  ends body (inl a) cs → ends (try_ body h) (inl a) cs.
Proof.
  intros Hb w. destruct (Hb w) as [H1 H2]. unfold try_.
  destruct (body w) as [y w1]. simpl in *. by subst y.
Qed.

Lemma ends_try_return {A : Type} (body : T A) (h : Failure → option (T A))
    (b : bool) (cs : list Call) :
  ends body (inr (ReturnValue b)) cs →
  ends (try_ body h) (inr (ReturnValue b)) cs.
Proof.
  intros Hb w. destruct (Hb w) as [H1 H2]. unfold try_.
  destruct (body w) as [y w1]. simpl in *. by subst y.
Qed.

Lemma ends_try_caught {A : Type} (body : T A) (h : Failure → option (T A))
    (f : Failure) (clause : T A) (r : A + Exit) (cs1 cs2 : list Call) :
  ends body (inr (Throw f)) cs1 → h f = Some clause → ends clause r cs2 →
  ends (try_ body h) r (cs1 ++ cs2).
Proof.
  intros Hb Hh Hc w. destruct (Hb w) as [H1 H2]. unfold try_.
  destruct (body w) as [y w1]. simpl in *. subst y. rewrite Hh.
  destruct (Hc w1) as [H3 H4]. split; [exact H3|].
  by rewrite H4, H2, app_assoc.
Qed.

Lemma ends_try_uncaught {A : Type} (body : T A) (h : Failure → option (T A))
    (f : Failure) (cs : list Call) :
  ends body (inr (Throw f)) cs → h f = None →
  ends (try_ body h) (inr (Throw f)) cs.
Proof.
  intros Hb Hh w. destruct (Hb w) as [H1 H2]. unfold try_.
  destruct (body w) as [y w1]. simpl in *. subst y. by rewrite Hh.
Qed.

Lemma ends_show_objects (l : list Object) :
  ends (foldr (λ obj rest,
                 print ("   - " +:+ Key obj +:+ " (" +:+ str_int (Size obj)
                        +:+ " bytes)");;
                 rest)
              (mret tt) l) (inl tt) [].
Proof.
  induction l as [|obj l IH]; [apply ends_ret|].
  cbn [foldr].
  eapply ends_eq; [eapply ends_bind; [apply ends_print | exact IH] | |];
    reflexivity.
Qed.

(** Runs a sequence of prints, calls, returns and [try] blocks to its
    end. *)
Ltac conds :=
  cbv beta iota;
  repeat match goal with
         | H : ?c = _ |- context [if ?c then _ else _] =>
             rewrite H; cbv beta iota
         end.

Ltac walk_try :=
  first
    [ eapply ends_try_ok; solve [walk]
    | eapply ends_try_return; solve [walk]
    | eapply ends_try_caught;
      [solve [walk] | conds; reflexivity | conds; solve [walk]]
    | eapply ends_try_uncaught; [solve [walk] | conds; reflexivity] ]
with walk :=
  lazymatch goal with
  | |- ends (print _ ≫= _) _ _ =>
      eapply ends_bind; [apply ends_print | cbv beta; walk]
  | |- ends (print_exc _ ≫= _) _ _ =>
      eapply ends_bind; [apply ends_print_exc | cbv beta; walk]
  | |- ends (call _ (inr _) ≫= _) _ _ =>
      eapply ends_bind; [apply ends_call_ok | cbv beta; walk]
  | |- ends (call _ (inl _) ≫= _) _ _ =>
      eapply ends_bind_exit; apply ends_call_fail
  | |- ends (try_ _ _ ≫= _) _ _ =>
      first [ eapply ends_bind; [solve [walk_try] | cbv beta; walk]
            | eapply ends_bind_exit; solve [walk_try] ]
  | |- ends (try_ _ _) _ _ => walk_try
  | |- ends (if ?c then _ else _) _ _ => destruct c; walk
  | |- ends ((if ?c then _ else _) ≫= _) _ _ => destruct c; walk
  | |- ends (foldr _ _ _ ≫= _) _ _ =>
      eapply ends_bind; [apply ends_show_objects | cbv beta; walk]
  | |- ends (foldr _ _ _) _ _ => apply ends_show_objects
  | |- ends (mret _ ≫= _) _ _ =>
      eapply ends_bind; [apply ends_ret | cbv beta; walk]
  | |- ends (print _) _ _ => apply ends_print
  | |- ends (call _ (inr _)) _ _ => apply ends_call_ok
  | |- ends (call _ (inl _)) _ _ => apply ends_call_fail
  | |- ends (return_ _) _ _ => apply ends_return
  | |- ends (mret _) _ _ => apply ends_ret
  | |- ends (_ ≫= _) _ _ =>
      first [ eapply ends_bind; [eassumption | cbv beta; walk]
            | eapply ends_bind_exit; eassumption ]
  | |- ends _ _ _ => eassumption
  end.

Lemma check_bucket_spec (conf : Settings) (s3 : Client) :
  ends (check_bucket conf s3) (check_exit conf s3) (check_calls conf s3).
Proof.
  unfold check_bucket, check_exit, check_calls, location, is_Exception.
  cbv zeta.
  repeat (case_match; subst; cbv beta iota in *); try discriminate.
  all: eapply ends_eq; [walk | reflexivity | reflexivity].
Qed.

Lemma list_objects_spec (conf : Settings) (s3 : Client) :
  ends (list_objects conf s3)
    (match list_objects_v2 s3 (BUCKET_NAME conf) 10 with
     | inr _ => inl tt
     | inl f => inr (Throw f)
     end)
    [CListObjects (BUCKET_NAME conf) 10].
Proof.
  unfold list_objects. cbv zeta.
  destruct (list_objects_v2 s3 (BUCKET_NAME conf) 10) as [f|l].
  - eapply ends_eq; [walk | reflexivity | reflexivity].
  - eapply ends_eq;
      [eapply ends_bind; [apply ends_print|]; cbv beta;
       eapply ends_bind; [apply ends_call_ok|]; cbv beta zeta;
       eapply ends_bind; [apply ends_print|]; cbv beta;
       destruct (Contents l); walk
      | reflexivity | reflexivity].
Qed.

Lemma write_test_spec (conf : Settings) (now_113 now_114 : string)
    (s3 : Client) :
  ends (write_test conf now_113 now_114 s3)
    (write_exit conf now_113 now_114 s3)
    (write_calls conf now_113 now_114 s3).
Proof.
  unfold write_test, write_exit, write_calls, test_key, test_content.
  cbv zeta.
  repeat (case_match; subst; cbv beta iota in *); try discriminate.
  all: eapply ends_eq; [walk | reflexivity | reflexivity].
Qed.

Lemma run_tests_spec (conf : Settings) (now_113 now_114 : string)
    (s3 : Client) :
  ends (run_tests conf now_113 now_114 s3)
    (tests_exit conf now_113 now_114 s3)
    (tests_calls conf now_113 now_114 s3).
Proof.
  pose proof (check_bucket_spec conf s3) as Hcheck.
  pose proof (list_objects_spec conf s3) as Hlist.
  pose proof (write_test_spec conf now_113 now_114 s3) as Hwrite.
  unfold run_tests, tests_exit, tests_calls.
  revert Hcheck Hlist Hwrite.
  repeat (case_match; simplify_eq; cbv beta iota in *).
  all: intros Hcheck Hlist Hwrite.
  all: eapply ends_eq;
    [walk | reflexivity | rewrite <-?app_assoc, ?app_nil_r; reflexivity].
Qed.

Lemma tests_exit_not_inl (conf : Settings) (now_113 now_114 : string)
    (s3 : Client) (b : bool) :
  tests_exit conf now_113 now_114 s3 ≠ inl b.
Proof. unfold tests_exit. by repeat case_match. Qed.

(** The script, as the summary has it. *)
Lemma test_connection_body_spec (conf : Settings)
    (boto3_client : Config → Failure + Client)
    (now_49 now_113 now_114 : string) :
  ends (test_connection_body conf boto3_client now_49 now_113 now_114)
    (match verdict conf boto3_client now_113 now_114 with
     | inl b => inr (ReturnValue b)
     | inr f => inr (Throw f)
     end)
    (trace conf boto3_client now_113 now_114).
Proof.
  unfold test_connection_body, verdict, trace, get_s3_client, caught,
    is_Exception.
  destruct (negb (truthy (AWS_ACCESS_KEY_ID conf))
            || negb (truthy (AWS_SECRET_ACCESS_KEY conf))) eqn:Hcred.
  { eapply ends_eq; [walk | reflexivity | reflexivity]. }
  destruct (boto3_client (config conf)) as [f|s3] eqn:Hclient.
  { repeat (case_match; simplify_eq; cbv beta iota in *).
    all: eapply ends_eq; [walk | reflexivity | reflexivity]. }
  pose proof (run_tests_spec conf now_113 now_114 s3) as Htests.
  revert Htests.
  repeat (case_match; simplify_eq; cbv beta iota in *).
  all: intros Htests.
  all: try match goal with
           | H : tests_exit _ _ _ _ = inl _ |- _ =>
               by apply tests_exit_not_inl in H
           end.
  all: eapply ends_eq;
    [walk | reflexivity | rewrite <-?app_assoc, ?app_nil_r; reflexivity].
Qed.

Lemma test_connection_spec (conf : Settings)
    (boto3_client : Config → Failure + Client)
    (now_49 now_113 now_114 : string) (w : World) :
  (test_connection conf boto3_client now_49 now_113 now_114 w).1
  = verdict conf boto3_client now_113 now_114 ∧
  calls (test_connection conf boto3_client now_49 now_113 now_114 w).2
  = calls w ++ trace conf boto3_client now_113 now_114.
Proof.
  destruct (test_connection_body_spec conf boto3_client now_49 now_113
              now_114 w) as [Hr Hc].
  unfold test_connection.
  destruct (test_connection_body _ _ _ _ _ w) as [r w']. simpl in Hr, Hc.
  subst r. by destruct (verdict _ _ _ _).
Qed.

(** X1: without credentials the script gives up before it touches boto3.
    When either [AWS_ACCESS_KEY_ID] or [AWS_SECRET_ACCESS_KEY] is unset or
    empty, [test_connection] returns [False] without making a single call,
    not even creating the client, and the script exits with status 1. *)
Theorem missing_credentials_make_no_call (conf : Settings)
    (boto3_client : Config → Failure + Client) (now_49 now_113 now_114 : string)
    (w : World) :
  truthy (AWS_ACCESS_KEY_ID conf) = false
  ∨ truthy (AWS_SECRET_ACCESS_KEY conf) = false →
  (test_connection conf boto3_client now_49 now_113 now_114 w).1 = inl false ∧
  calls (test_connection conf boto3_client now_49 now_113 now_114 w).2
  = calls w ∧
  (main conf boto3_client now_49 now_113 now_114 w).1 = inl 1%Z.
Proof.
  intros Hmiss.
  destruct (test_connection_spec conf boto3_client now_49 now_113 now_114 w)
    as [Hv Hc].
  assert (negb (truthy (AWS_ACCESS_KEY_ID conf))
          || negb (truthy (AWS_SECRET_ACCESS_KEY conf)) = true) as Hb.
  { destruct Hmiss as [-> | ->]; [reflexivity|]. by rewrite orb_true_r. }
  unfold verdict in Hv. unfold trace in Hc. rewrite Hb in Hv, Hc.
  rewrite app_nil_r in Hc. split_and!; [exact Hv | exact Hc |].
  unfold main. destruct (test_connection _ _ _ _ _ w) as [r w'].
  simpl in Hv. by subst r.
Qed.

Lemma missing_credentials_make_no_call_witness :
  (main (settings {[ "AWS_ACCESS_KEY_ID" := "" ;
                     "AWS_SECRET_ACCESS_KEY" := "secret" ]})
     (λ _, inl (NoCredentialsError "")) "" "" "" nothing).1 = inl 1%Z.
Proof.
  apply (missing_credentials_make_no_call
           (settings {[ "AWS_ACCESS_KEY_ID" := "" ;
                        "AWS_SECRET_ACCESS_KEY" := "secret" ]})
           (λ _, inl (NoCredentialsError "")) "" "" "" nothing).
  left. vm_compute. reflexivity.
Defined.

(** X2: the script exits with status 0 exactly when the credentials are
    set, the client could be created, [list_buckets] answered, the bucket
    was there or was missing (code 404) and could be created,
    [list_objects_v2] answered, and the write test raised nothing but a
    [ClientError].  A failing write test alone does not fail the script. *)
Theorem exit_status_is_zero_iff_passes (conf : Settings)
    (boto3_client : Config → Failure + Client) (now_49 now_113 now_114 : string)
    (w : World) :
  (main conf boto3_client now_49 now_113 now_114 w).1 = inl 0%Z
  ↔ passes conf boto3_client now_113 now_114 = true.
Proof.
  destruct (test_connection_spec conf boto3_client now_49 now_113 now_114 w)
    as [Hv _].
  unfold main. destruct (test_connection _ _ _ _ _ w) as [r w'].
  simpl in Hv. subst r. cbn [fst].
  unfold verdict, tests_exit, passes, caught, check_exit, write_exit,
    bucket_ready, write_tolerated, answered, location, test_key,
    test_content, is_Exception.
  destruct (truthy (AWS_ACCESS_KEY_ID conf)),
    (truthy (AWS_SECRET_ACCESS_KEY conf)); cbn [negb orb andb];
    try (split; discriminate).
  repeat (case_match; simplify_eq; cbn [andb] in *).
  all: cbn [fst]; split; congruence.
Qed.

Lemma exit_status_is_zero_iff_passes_witness :
  (main (settings {[ "AWS_ACCESS_KEY_ID" := "id" ;
                     "AWS_SECRET_ACCESS_KEY" := "secret" ]})
     (λ _, inr {| list_buckets := inr None;
                  head_bucket := λ _, inr tt;
                  create_bucket := λ _ _, inr tt;
                  list_objects_v2 :=
                    λ _ _, inr {| KeyCount := None; Contents := None |};
                  put_object :=
                    λ _ _ _ _, inl (ClientError "AccessDenied" "read-only");
                  delete_object := λ _ _, inr tt |})
     "" "" "" nothing).1 = inl 0%Z.
Proof.
  apply exit_status_is_zero_iff_passes. vm_compute. reflexivity.
Defined.

(** X3: the script creates a bucket only after [head_bucket] answered with
    a [ClientError] of code 404, only the configured bucket, and with a
    [LocationConstraint] exactly when the region is not [us-east-1] (then
    the region itself). *)
Theorem bucket_is_created_only_when_missing (conf : Settings)
    (boto3_client : Config → Failure + Client) (now_49 now_113 now_114 : string)
    (bucket : string) (constraint : option string) :
  CCreateBucket bucket constraint
  ∈ calls (test_connection conf boto3_client now_49 now_113 now_114
             nothing).2 →
  bucket = BUCKET_NAME conf ∧
  constraint = (if String.eqb (AWS_REGION conf) "us-east-1" then None
                else Some (AWS_REGION conf)) ∧
  ∃ s3 msg,
    boto3_client (config conf) = inr s3 ∧
    head_bucket s3 (BUCKET_NAME conf) = inl (ClientError "404" msg).
Proof.
  destruct (test_connection_spec conf boto3_client now_49 now_113 now_114
              nothing) as [_ ->].
  cbn [calls nothing app].
  unfold trace, tests_calls, check_calls, write_calls, location.
  intros Hin.
  repeat (case_match; simplify_eq); set_unfold in Hin;
    try (by intuition discriminate).
  all: match goal with
       | H : (_ =? "404")%string = true |- _ => apply String.eqb_eq in H
       end; subst.
  all: assert (CCreateBucket bucket constraint
               = CCreateBucket (BUCKET_NAME conf) None
               ∨ CCreateBucket bucket constraint
                 = CCreateBucket (BUCKET_NAME conf) (Some (AWS_REGION conf)))
         as [Heq|Heq] by (intuition (discriminate || eauto));
    injection Heq as -> ->; try discriminate.
  all: try (split_and!; [reflexivity | reflexivity | eauto]).
  all: intuition discriminate.
Qed.

Lemma bucket_is_created_only_when_missing_witness :
  ∃ s3 msg,
    inr (demo_client (inl (ClientError "404" "Not Found")) (inr tt))
    = (inr s3 : Failure + Client) ∧
    head_bucket s3 "narrated" = inl (ClientError "404" msg).
Proof.
  edestruct (bucket_is_created_only_when_missing demo_settings
               (λ _, inr (demo_client (inl (ClientError "404" "Not Found"))
                            (inr tt)))
               "" "" "" "narrated" (Some "eu-west-1"))
    as (_ & _ & s3 & msg & H1 & H2).
  - vm_compute. set_solver.
  - exists s3, msg. split; [exact H1 | exact H2].
Defined.

(** X4: the script cleans up after itself.  It calls [delete_object]
    exactly when it has called [put_object] and that call succeeded, and
    then on the very bucket and key it wrote; it deletes nothing else. *)
Theorem test_file_is_deleted_iff_written (conf : Settings)
    (boto3_client : Config → Failure + Client) (now_49 now_113 now_114 : string)
    (s3 : Client) :
  boto3_client (config conf) = inr s3 →
  (CDeleteObject (BUCKET_NAME conf) (test_key now_113)
   ∈ calls (test_connection conf boto3_client now_49 now_113 now_114
              nothing).2
   ↔ CPutObject (BUCKET_NAME conf) (test_key now_113)
       (test_content now_114) "text/plain"
     ∈ calls (test_connection conf boto3_client now_49 now_113 now_114
                nothing).2
     ∧ put_object s3 (BUCKET_NAME conf) (test_key now_113)
         (test_content now_114) "text/plain" = inr tt) ∧
  (∀ bucket key,
     CDeleteObject bucket key
     ∈ calls (test_connection conf boto3_client now_49 now_113 now_114
                nothing).2 →
     bucket = BUCKET_NAME conf ∧ key = test_key now_113).
Proof.
  intros Hclient.
  destruct (test_connection_spec conf boto3_client now_49 now_113 now_114
              nothing) as [_ ->].
  cbn [calls nothing app].
  unfold trace, tests_calls, check_calls, write_calls. rewrite Hclient.
  repeat (case_match; simplify_eq);
    repeat match goal with u : unit |- _ => destruct u end;
    set_unfold; split.
  all: try (intuition (discriminate || congruence)).
  all: try (intros bucket key; intuition (discriminate || congruence)).
  all: try (split; [|done]; intuition eauto 10).
Qed.

Lemma test_file_is_deleted_iff_written_witness :
  CDeleteObject "narrated" (test_key "20240101_000000")
  ∈ calls (test_connection demo_settings
             (λ _, inr (demo_client (inr tt) (inr tt)))
             "" "20240101_000000" "" nothing).2.
Proof.
  apply (test_file_is_deleted_iff_written demo_settings
           (λ _, inr (demo_client (inr tt) (inr tt)))
           "" "20240101_000000" "" (demo_client (inr tt) (inr tt))
           eq_refl).
  split; [vm_compute; set_solver | reflexivity].
Defined.

(** X5: the script ends with a verdict whatever boto3 raises, as long as
    it is an [Exception]: [test_connection] lets an exception through only
    if it is not an instance of [Exception], and so does [main]. *)
Theorem only_non_exceptions_end_the_script (conf : Settings)
    (boto3_client : Config → Failure + Client) (now_49 now_113 now_114 : string)
    (w : World) (f : Failure) :
  (main conf boto3_client now_49 now_113 now_114 w).1 = inr f →
  (test_connection conf boto3_client now_49 now_113 now_114 w).1 = inr f ∧
  is_Exception f = false.
Proof.
  destruct (test_connection_spec conf boto3_client now_49 now_113 now_114 w)
    as [Hv _].
  unfold main. destruct (test_connection _ _ _ _ _ w) as [r w'].
  cbn [fst] in *. subst r.
  destruct (verdict conf boto3_client now_113 now_114) as [b|f'] eqn:Hv;
    [discriminate|].
  intros [= ->]. split; [reflexivity|].
  unfold verdict, caught in Hv.
  repeat (case_match; simplify_eq); done.
Qed.

Lemma only_non_exceptions_end_the_script_witness :
  is_Exception
    (OtherError {| exc_class := KeyboardInterrupt; exc_str := "";
                   exc_trace := "" |}) = false.
Proof.
  eapply (only_non_exceptions_end_the_script demo_settings
            (λ _, inl (OtherError {| exc_class := KeyboardInterrupt;
                                     exc_str := ""; exc_trace := "" |}))
            "" "" "" nothing).
  vm_compute. reflexivity.
Defined.

End S3Facts.

(** ** More on the engine *)




(** X7: the redirection is scoped to the call.  When a call that runs
    alone returns or lets an exception through, [sys.stdout] and
    [sys.stderr] are what they were when it was made: on success, on a
    failure of the executed code, on a timeout and on a syntax error
    alike. *)
Theorem redirections_are_undone (compile : string → Code + PyExc)
    (source : string) (timeout : Z) (σ : Proc) :
  sys_stdout (after compile source timeout σ) = sys_stdout σ ∧
  sys_stderr (after compile source timeout σ) = sys_stderr σ.
Proof.
  unfold after, execute_code_with_timeout. cbv [mbind M_bind mret M_ret].
  destruct (compile source) as [c|e0] eqn:Hc.
  - rewrite (enter_handler_compiled _ _ _ _ _ Hc).
    destruct (wait_for_spec (frame_at c timeout σ) (dispatched c σ))
      as (w & t & done & σ2 & _ & ->).
    by rewrite resume_handler_spec.
  - by rewrite (enter_handler_failed _ _ _ _ _ Hc).
Qed.

(** X8: nothing the executed code prints while the call is waiting for it
    reaches a stream of the host.  When a call that runs alone returns,
    every stream that existed before it holds exactly what it held. *)
Theorem host_streams_receive_nothing (compile : string → Code + PyExc)
    (source : string) (timeout : Z) (σ : Proc) (l : loc) :
  (l < length (heap σ))%nat →
  getvalue l (after compile source timeout σ) = getvalue l σ.
Proof.
  intros Hl.
  assert (getvalue l (with_locals σ) = getvalue l σ) as Hnew.
  { unfold getvalue, with_locals. simpl. by rewrite lookup_app_l. }
  unfold after, execute_code_with_timeout. cbv [mbind M_bind mret M_ret].
  destruct (compile source) as [c|e0] eqn:Hc.
  - rewrite (enter_handler_compiled _ _ _ _ _ Hc).
    destruct (wait_for_spec (frame_at c timeout σ) (dispatched c σ))
      as (w & t & done & σ2 & Hw & ->).
    rewrite resume_handler_spec. cbn [snd].
    change (getvalue l σ2 = getvalue l σ).
    rewrite (run_worker_quiet _ _ _ l _ _ _ _ _ _ _ _ Hw);
      [exact Hnew | simpl; lia | simpl; lia].
  - by rewrite (enter_handler_failed _ _ _ _ _ Hc).
Qed.

Lemma host_streams_receive_nothing_witness :
  getvalue 3%nat (after py_compile "print('hi'); result = 1+1" 10 boot)
  = getvalue 3%nat boot.
Proof.
  apply (host_streams_receive_nothing py_compile
           "print('hi'); result = 1+1" 10 boot 3%nat).
  simpl. lia.
Defined.









(** ** The endpoint *)

(** X13: the endpoint rejects a request exactly when its code is empty or
    made of whitespace only, of any of the whitespace characters of
    Unicode.  Such a request gets the 400 "No code provided" and leaves
    the process as it was: nothing is compiled, no buffer is created.
    Any other code reaches the engine and is never answered with an
    [HTTPException]. *)
Theorem blank_code_is_rejected (PYTHON_EXECUTE_TIMEOUT : Z)
    (compile : string → Code + PyExc) (request : CodeExecutionRequest)
    (σ : Proc) :
  (blank (code request) = true →
   execute_python_code PYTHON_EXECUTE_TIMEOUT compile request σ
   = (HTTPException 400 "No code provided", σ)) ∧
  (blank (code request) = false →
   ∀ status_code detail,
     (execute_python_code PYTHON_EXECUTE_TIMEOUT compile request σ).1
     ≠ HTTPException status_code detail).
Proof.
  split.
  - intros Hb. unfold execute_python_code. by rewrite strip_truthy, Hb.
  - intros Hb status_code detail.
    rewrite (execute_python_code_runs _ _ _ _ Hb). unfold passed_on.
    by destruct (execute_code_with_timeout _ _ _ σ) as [[o|e] σ'].
Qed.

Lemma blank_code_is_rejected_witness :
  execute_python_code 3600 py_compile
    {| code := em_space +:+ " " +:+ nl; timeout := None |} boot
  = (HTTPException 400 "No code provided", boot).
Proof.
  apply (blank_code_is_rejected 3600 py_compile
           {| code := em_space +:+ " " +:+ nl; timeout := None |} boot).
  reflexivity.
Defined.

(** ** Calls that overlap *)

(** X14: what two overlapping calls do to [sys.stdout].  When a second
    call enters while the first is suspended, [sys.stdout] is the second
    call's buffer, so from then on both workers print into it.  If the
    calls then resume in the order they arrived, [sys.stdout] is left
    pointing at the first call's buffer, not at the stream of the host; if
    they resume in the reverse order, the host's stream is back. *)
Theorem overlapping_calls_and_the_redirection
    (compile : string → Code + PyExc) (source1 source2 : string)
    (timeout1 timeout2 : Z) (σ σ1 σ2 : Proc) (fr1 fr2 : Frame) :
  enter_handler compile source1 timeout1 σ = (inl fr1, σ1) →
  enter_handler compile source2 timeout2 σ1 = (inl fr2, σ2) →
  sys_stdout σ2 = fr_stdout_capture fr2 ∧
  fr_stdout_capture fr2 ≠ fr_stdout_capture fr1 ∧
  (∀ w1 w2 σ3,
     sys_stdout (resume_handler fr2 w2 (resume_handler fr1 w1 σ3).2).2
     = fr_stdout_capture fr1) ∧
  (∀ w1 w2 σ3,
     sys_stdout (resume_handler fr1 w1 (resume_handler fr2 w2 σ3).2).2
     = sys_stdout σ) ∧
  ((sys_stdout σ < length (heap σ))%nat →
   fr_stdout_capture fr1 ≠ sys_stdout σ).
Proof.
  intros He1 He2.
  apply enter_handler_inl in He1 as (_ & Hf1 & Hs1).
  apply enter_handler_inl in He2 as (_ & Hf2 & Hs2).
  assert (fr_stdout_capture fr1 = length (heap σ)) as Hc1
    by (by rewrite Hf1).
  assert (fr_old_stdout fr1 = sys_stdout σ) as Ho1 by (by rewrite Hf1).
  assert (fr_stdout_capture fr2 = length (heap σ1)) as Hc2
    by (by rewrite Hf2).
  assert (fr_old_stdout fr2 = length (heap σ)) as Ho2.
  { rewrite Hf2. simpl. by rewrite Hs1. }
  assert (length (heap σ1) = (length (heap σ) + 3)%nat) as Hlen.
  { rewrite Hs1. simpl. by rewrite length_app. }
  split_and!.
  - rewrite Hs2, Hc2. reflexivity.
  - rewrite Hc1, Hc2, Hlen. lia.
  - intros w1 w2 σ3. rewrite !resume_handler_spec. cbn [snd].
    change (fr_old_stdout fr2 = fr_stdout_capture fr1). by rewrite Ho2, Hc1.
  - intros w1 w2 σ3. rewrite !resume_handler_spec. cbn [snd].
    change (fr_old_stdout fr1 = sys_stdout σ). exact Ho1.
  - rewrite Hc1. lia.
Qed.

Lemma overlapping_calls_and_the_redirection_witness :
  sys_stdout
    (enter_handler py_compile "import time; time.sleep(1); print('B')" 10
       (enter_handler py_compile "import time; time.sleep(1); print('A')" 10
          boot).2).2
  = 8%nat.
Proof.
  edestruct (overlapping_calls_and_the_redirection py_compile
               "import time; time.sleep(1); print('A')"
               "import time; time.sleep(1); print('B')" 10 10 boot)
    as (H & _).
  - vm_compute. reflexivity.
  - vm_compute. reflexivity.
  - vm_compute in H |- *. exact H.
Defined.

Lemma step_request (compile : string → Code + PyExc) (s : Server) (r : nat)
    (source : string) (timeout : Z) (c : Code) :
  tasks s !! r = None →
  compile source = inl c →
  step compile s (Request r source timeout)
  = {| proc := dispatched c (proc s);
       tasks := <[r := Dispatched (frame_at c timeout (proc s)) (body c)
                        None (clock (proc s)) None]> (tasks s) |}.
Proof.
  intros Hr Hc. simpl. by rewrite Hr, (enter_handler_compiled _ _ _ _ _ Hc).
Qed.

Lemma step_work (compile : string → Code + PyExc) (s : Server) (r : nat)
    (fr : Frame) (i : Instr) (rest : list Instr) (ready : N)
    (resp : option Result) :
  tasks s !! r = Some (Dispatched fr (i :: rest) None ready resp) →
  (ready ≤ clock (proc s))%N →
  step compile s (Work r)
  = {| proc := (exec_instr (fr_exec_globals fr) i (proc s)).2;
       tasks := <[r := Dispatched fr rest
                        (exec_instr (fr_exec_globals fr) i (proc s)).1
                        (clock (proc s) + cost i) resp]> (tasks s) |}.
Proof.
  intros Hr Hready. simpl. rewrite Hr.
  destruct (N.leb_spec ready (clock (proc s))); [|lia].
  by destruct (exec_instr _ i (proc s)).
Qed.

Lemma step_expire (compile : string → Code + PyExc) (s : Server) (r : nat)
    (fr : Frame) (rest : list Instr) (raised : option PyExc) (ready : N) :
  tasks s !! r = Some (Dispatched fr rest raised ready None) →
  (deadline_of fr ≤ clock (proc s))%N →
  worker_first fr rest raised ready = false →
  step compile s (Expire r)
  = {| proc := restored fr (proc s);
       tasks := <[r := Dispatched fr rest raised ready
                        (Some (resume_handler fr TimedOut (proc s)).1)]>
                  (tasks s) |}.
Proof.
  intros Hr Hd Hw. simpl. rewrite Hr, Hw.
  destruct (N.leb_spec (deadline_of fr) (clock (proc s))); [|lia].
  simpl. unfold resume. by rewrite resume_handler_spec.
Qed.

(** Before its time a timeout changes nothing. *)
Lemma step_expire_early (compile : string → Code + PyExc) (s : Server)
    (r : nat) (fr : Frame) (rest : list Instr) (raised : option PyExc)
    (ready : N) (resp : option Result) :
  tasks s !! r = Some (Dispatched fr rest raised ready resp) →
  (clock (proc s) < deadline_of fr)%N →
  step compile s (Expire r) = s.
Proof.
  intros Hr Hd. simpl. rewrite Hr.
  destruct resp; [reflexivity|].
  by destruct (N.leb_spec (deadline_of fr) (clock (proc s))); [lia|].
Qed.

(** X15: a timeout stops the waiting, not the worker.  Take code that
    sleeps past the deadline and then prints.  The handler cannot answer
    before the deadline; at the deadline it answers with the timeout error
    and an empty [stdout], and undoes the redirection; when the sleep is
    over the worker still runs its next statement, and what it prints is
    not in the answer but lands in the stream [sys.stdout] was before the
    request: the host's own output. *)
Theorem abandoned_worker_keeps_running (compile : string → Code + PyExc)
    (source : string) (timeout : Z) (r : nat) (s : Server) (c : Code)
    (ms : N) (text old : string) (rest : list Instr) :
  tasks s !! r = None →
  compile source = inl c →
  body c = ISleep ms :: IPrint text :: rest →
  (Z.to_N (1000 * timeout) < ms)%N →
  heap (proc s) !! sys_stdout (proc s) = Some (OStream old) →
  (∃ o,
     response r (run compile (outlived r source timeout ms) s)
     = Some (Returned o) ∧
     success o = false ∧
     error o = Some ("Execution timed out after " +:+ str_int timeout
                     +:+ " seconds") ∧
     stdout o = "") ∧
  getvalue (sys_stdout (proc s))
    (proc (run compile (outlived r source timeout ms) s))
  = inl (old +:+ text) ∧
  ((0 < timeout)%Z →
   run compile [Request r source timeout; Work r; Expire r] s
   = run compile [Request r source timeout; Work r] s).
Proof.
  intros Hr Hc Hbody Hms Hold.
  set (fr := frame_at c timeout (proc s)).
  set (d := Z.to_N (1000 * timeout)) in *.
  set (now := clock (proc s)).
  (* the request is made and the worker starts its sleep *)
  set (s2 := run compile [Request r source timeout; Work r] s).
  assert (s2 = {| proc := dispatched c (proc s);
                  tasks := <[r := Dispatched fr (IPrint text :: rest) None
                                   (now + ms) None]> (tasks s) |}) as Hs2.
  { unfold s2, run. cbn [foldl]. rewrite (step_request _ _ _ _ _ _ Hr Hc).
    erewrite step_work;
      [|cbn [tasks]; rewrite lookup_insert_eq, Hbody; reflexivity
       |cbn [proc]; simpl; lia].
    cbn [proc tasks exec_instr cost fst snd]. by rewrite insert_insert_eq. }
  (* the deadline passes *)
  set (σ3 := set_clock (now + d) (dispatched c (proc s))).
  assert (resume_handler fr TimedOut σ3
          = (Returned {| success := false; stdout := ""; stderr := "";
                         result := VNone;
                         error := Some ("Execution timed out after "
                                        +:+ str_int timeout +:+ " seconds");
                         execution_time := seconds (now + d - now) |},
             restored fr σ3)) as Hres.
  { destruct (dispatched_getvalue c (proc s)) as [H1 H2].
    by rewrite (resume_handler_open fr TimedOut σ3 "" "" H1 H2). }
  set (s4 := run compile [Tick d; Expire r] s2).
  assert (s4 = {| proc := restored fr σ3;
                  tasks := <[r := Dispatched fr (IPrint text :: rest) None
                                   (now + ms)
                                   (Some (resume_handler fr TimedOut σ3).1)]>
                             (tasks s) |}) as Hs4.
  { unfold s4, run. cbn [foldl]. rewrite Hs2.
    erewrite step_expire;
      [|cbn [step tasks]; rewrite lookup_insert_eq; reflexivity
       |cbn [step proc]; unfold deadline_of; simpl; lia
       |].
    - cbn [step proc tasks]. by rewrite insert_insert_eq.
    - unfold worker_first.
      destruct (N.leb_spec (now + ms) (deadline_of fr)); [|reflexivity].
      unfold deadline_of in *. simpl in *. lia. }
  (* the sleep is over *)
  assert (heap (restored fr σ3) !! sys_stdout (proc s) = Some (OStream old))
    as Hl.
  { simpl. rewrite lookup_app_l; [exact Hold|]. by eapply lookup_lt_Some. }
  assert (run compile (outlived r source timeout ms) s
          = {| proc := (stream_write (sys_stdout (proc s)) text
                          (set_clock (now + d + (ms - d))
                             (restored fr σ3))).2;
               tasks := <[r := Dispatched fr rest
                                 (stream_write (sys_stdout (proc s)) text
                                    (set_clock (now + d + (ms - d))
                                       (restored fr σ3))).1
                                 (now + d + (ms - d) + 0)
                                 (Some (resume_handler fr TimedOut σ3).1)]>
                          (tasks s) |}) as ->.
  { change (run compile (outlived r source timeout ms) s)
      with (step compile (step compile s4 (Tick (ms - d))) (Work r)).
    rewrite Hs4.
    erewrite step_work;
      [|cbn [step tasks]; rewrite lookup_insert_eq; reflexivity
       |cbn [step proc]; simpl; lia].
    cbn [step proc tasks]. by rewrite insert_insert_eq. }
  split_and!.
  - eexists. unfold response. cbn [tasks]. rewrite lookup_insert_eq, Hres.
    split; [reflexivity|]. by split_and!.
  - cbn [proc]. unfold stream_write. cbn [heap set_clock].
    rewrite Hl. cbn [snd]. unfold getvalue. cbn [heap set_heap].
    rewrite list_lookup_insert_eq; [reflexivity|].
    by eapply lookup_lt_Some.
  - intros Htmo. change (step compile s2 (Expire r) = s2). rewrite Hs2.
    eapply step_expire_early;
      [cbn [tasks]; by rewrite lookup_insert_eq|].
    unfold deadline_of. simpl. lia.
Qed.

Lemma abandoned_worker_keeps_running_witness :
  getvalue 3%nat
    (proc (run py_compile
             (outlived 1 "import time; time.sleep(2); print('late')" 1 2000)
             idle))
  = inl ("late" +:+ nl).
Proof.
  destruct (abandoned_worker_keeps_running py_compile
              "import time; time.sleep(2); print('late')" 1 1 idle
              {| body := [ISleep 2000; IPrint ("late" +:+ nl)];
                 ending := Return |}
              2000 ("late" +:+ nl) "" [])
    as (_ & H & _).
  - reflexivity.
  - vm_compute. reflexivity.
  - reflexivity.
  - vm_compute. reflexivity.
  - vm_compute. reflexivity.
  - exact H.
Defined.

(** ** The information endpoints *)



(** X17: the timeout the service advertises is the one it applies.  A
    request without a timeout of its own has its code run by
    [execute_code_with_timeout] under the bound [PYTHON_EXECUTE_TIMEOUT],
    and that very number is the [default_timeout] of [/], the
    [timeout_setting] of [/health] and the [PYTHON_EXECUTE_TIMEOUT] of
    [/v1/info]. *)
Theorem advertised_timeout_is_the_one_applied (PYTHON_EXECUTE_TIMEOUT : Z)
    (host : Host) (compile : string → Code + PyExc) (source : string)
    (σ : Proc) :
  blank source = false →
  execute_python_code PYTHON_EXECUTE_TIMEOUT compile
    {| code := source; timeout := None |} σ
  = passed_on
      (execute_code_with_timeout compile source PYTHON_EXECUTE_TIMEOUT σ) ∧
  field "default_timeout" (root PYTHON_EXECUTE_TIMEOUT)
  = Some (VInt PYTHON_EXECUTE_TIMEOUT) ∧
  (∀ v, health_check PYTHON_EXECUTE_TIMEOUT host = inl v →
        field "timeout_setting" v = Some (VInt PYTHON_EXECUTE_TIMEOUT)) ∧
  (∀ v, get_instance_info PYTHON_EXECUTE_TIMEOUT host = inl v →
        ∃ env, field "environment" v = Some env ∧
               field "PYTHON_EXECUTE_TIMEOUT" env
               = Some (VInt PYTHON_EXECUTE_TIMEOUT)).
Proof.
  intros Hb. split_and!.
  - rewrite (execute_python_code_runs _ _ {| code := source |} _ Hb).
    unfold effective_timeout. simpl. by rewrite Z.min_id.
  - reflexivity.
  - intros v. unfold health_check.
    destruct (import_torch host) as [t|e]; [|discriminate].
    by intros [= <-].
  - intros v. unfold get_instance_info.
    destruct (import_torch host) as [t|e].
    + intros [= <-]. eexists. split; reflexivity.
    + destruct (isinstance e ImportError); [|discriminate].
      intros [= <-]. eexists. split; reflexivity.
Qed.

Lemma advertised_timeout_is_the_one_applied_witness :
  execute_python_code 3600 py_compile
    {| code := "x = 5"; timeout := None |} boot
  = passed_on (execute_code_with_timeout py_compile "x = 5" 3600 boot) ∧
  field "timeout_setting"
    (VDict [ ("status", VStr "healthy");
             ("gpu_available", VBool false);
             ("gpu_name", VStr "N/A");
             ("python_version", VStr "3.10.12");
             ("timeout_setting", VInt 3600) ])
  = Some (VInt 3600).
Proof.
  destruct (advertised_timeout_is_the_one_applied 3600
              {| import_torch :=
                   inl {| cuda_is_available := false; version_cuda := None;
                          cuda_device_count := 0;
                          cuda_get_device_name := "" |};
                 sys_version := "3.10.12"; working_set := [];
                 environ := ∅ |} py_compile "x = 5" boot)
    as (H1 & _ & H & _); [reflexivity|].
  split; [exact H1 | exact (H _ eq_refl)].
Defined.
